(** * LoopVectorizeEnv: a shallow embedding of [rl_env.py]

    The environment of [rl_env.py] lets a learning agent pick, per loop,
    a vectorization directive, runs an external toolchain ([opt], [opt
    -loop-vectorize], [clang], the produced binary) and turns the measured
    running time into a reward.

    The embedding follows the Python text:
    - Python [int] is [Z]; Python [float] is an IEEE binary64 value and
      [numpy.float32] a binary32 value, both as [spec_float] with the
      operations of [SpecFloat];
    - exceptions are a sum type and every method runs in a state and
      exception monad, whose state is the object [self] together with the
      outside world (the two JSON files, the child processes, the clock,
      the standard output);
    - the act map of [step] is a [gmap] from loop ids to directives;
    - what the outside world answers (exit statuses, clock readings) is an
      oracle stored in the world, indexed by the number of requests made so
      far, so that every run of the toolchain is a run of the model for some
      world.

    Left out: failures of the operating system itself (a program that
    cannot be started, a disk that cannot be written), feature files whose
    JSON is not an array of objects, and the contents of the files the
    toolchain writes and the environment never reads ([tmp_opt.ll],
    [tmp_vec.ll], the binary). *)

From Stdlib Require Import ZArith Zpower Floats.SpecFloat.
From stdpp Require Import gmap strings list.

Local Open Scope string_scope.
Local Open Scope Z_scope.
Local Open Scope list_scope.

(** ** Python numbers *)

(** Python [float] (binary64) and [numpy.float32] (binary32). *)
Abbreviation float := spec_float (only parsing).
Abbreviation float32 := spec_float (only parsing).

(** A float that is a number of the format given by [prec] and [emax]: a
    zero, or a mantissa and an exponent that the format admits; not an
    infinity and not a NaN. *)
Definition SFfinite (prec emax : Z) (a : spec_float) : bool :=
  match a with
  | S754_zero _ => true
  | S754_finite _ m e => bounded prec emax m e
  | _ => false
  end.

Module Float.

Definition prec : Z := 53.
Definition emax : Z := 1024.

(** The double nearest to an integer (ties to even); an infinity when the
    integer is beyond the range of doubles. *)
Definition of_Z (z : Z) : float := binary_normalize prec emax z 0 false.

(** [a - b] on Python floats. *)
Definition sub (a b : float) : float := SFsub prec emax a b.

Definition ltb (a b : float) : bool := SFltb a b.
Definition eqb (a b : float) : bool := SFeqb a b.

Definition zero : float := S754_zero false.

(** A finite binary64 number. *)
Definition finite (a : float) : bool := SFfinite prec emax a.

End Float.

Module Float32.

Definition prec : Z := 24.
Definition emax : Z := 128.

(** The C conversion of a double to a float: round to nearest, ties to
    even; zeros, infinities and NaN are kept. *)
Definition of_float (d : float) : float32 :=
  match d with
  | S754_finite s m e => binary_round prec emax s m e
  | _ => d
  end.

Definition zero : float32 := S754_zero false.

(** [-1.0] in binary32: sign bit set, mantissa [2^23], exponent [-23]. *)
Definition minus_one : float32 := S754_finite true 8388608 (-23).

End Float32.

(** ** Exceptions and results *)

Inductive exn :=
| FileNotFoundError
| JSONDecodeError
| IndexError
| KeyError (key : string)
| ValueError
| OverflowError
| CalledProcessError (returncode : Z) (cmd : list string).

(** The Python class of an exception. *)
Inductive exn_class :=
| cFileNotFoundError | cJSONDecodeError | cIndexError | cKeyError
| cValueError | cOverflowError | cCalledProcessError.

Definition class_of (e : exn) : exn_class :=
  match e with
  | FileNotFoundError => cFileNotFoundError
  | JSONDecodeError => cJSONDecodeError
  | IndexError => cIndexError
  | KeyError _ => cKeyError
  | ValueError => cValueError
  | OverflowError => cOverflowError
  | CalledProcessError _ _ => cCalledProcessError
  end.

Inductive result (A : Type) :=
| Ok (a : A)
| Raise (e : exn).
Arguments Ok {A} a.
Arguments Raise {A} e.

Definition is_Ok {A} (r : result A) : bool :=
  match r with Ok _ => true | Raise _ => false end.

(** ** The state and exception monad *)

Definition M (S A : Type) : Type := S -> result A * S.

Definition ret {S A} (a : A) : M S A := fun s => (Ok a, s).

Definition raise {S A} (e : exn) : M S A := fun s => (Raise e, s).

Definition bind {S A B} (m : M S A) (k : A -> M S B) : M S B :=
  fun s =>
    match m s with
    | (Ok a, s') => k a s'
    | (Raise e, s') => (Raise e, s')
    end.

(** [try: m except CalledProcessError as e: h e]. *)
Definition try_except {S A} (m : M S A) (h : exn -> M S A) : M S A :=
  fun s =>
    match m s with
    | (Ok a, s') => (Ok a, s')
    | (Raise (CalledProcessError rc cmd), s') => h (CalledProcessError rc cmd) s'
    | (Raise e, s') => (Raise e, s')
    end.

(** A computation without effects that may raise. *)
Definition pure {S A} (r : result A) : M S A := fun s => (r, s).

Declare Scope py_scope.
Delimit Scope py_scope with py.
Notation "x <- m ;; k" := (bind m (fun x => k))
  (at level 100, m at next level, k at level 200, right associativity) : py_scope.
Notation "m ;; k" := (bind m (fun _ => k))
  (at level 100, k at level 200, right associativity) : py_scope.
Local Open Scope py_scope.

(** ** Data model *)

(** One record of [loop_features.json] as [json.load] returns it: a dict
    with the keys below, each of which may be absent.  The counts and the
    trip count are JSON integers and the loop id is a JSON string. *)
Record loop := {
  loop_id : option string;
  num_blocks : option Z;
  num_loads : option Z;
  num_stores : option Z;
  num_arith : option Z;
  num_calls : option Z;
  trip_count_est : option Z;
}.

(** [d.get(key, dflt)] and [d[key]] on such a dict. *)
Definition get {A} (field : option A) (dflt : A) : A :=
  match field with Some v => v | None => dflt end.

Definition item {A} (key : string) (field : option A) : result A :=
  match field with Some v => Ok v | None => Raise (KeyError key) end.

(** What [action_to_metadata] returns: [{"disable": flag}] or
    [{"width": w}]. *)
Inductive metadata :=
| Disable (flag : bool)
| Width (w : Z).

(** An observation: a one-dimensional [float32] array. *)
Abbreviation obs := (list spec_float) (only parsing).

(** [info = {"runtime": t}]. *)
Record info := { runtime : float }.

(** The gym spaces the constructor builds.  The bounds of a [Box] are the
    whole numbers [-1e9] and [1e9], kept as integers. *)
Inductive space :=
| Discrete (n : Z)
| MultiDiscrete (nvec : list Z)
| Box (low high : Z) (shape : list Z).

(** [len(l)], [l[i]] with Python's negative indices, [[x] * n]. *)
Definition len {A} (l : list A) : Z := Z.of_nat (length l).

Definition getitem {A} (l : list A) (i : Z) : result A :=
  let j := if i <? 0 then i + len l else i in
  if j <? 0 then Raise IndexError
  else match l !! Z.to_nat j with
       | Some x => Ok x
       | None => Raise IndexError
       end.

Definition repeat_list {A} (x : A) (n : Z) : list A := replicate (Z.to_nat n) x.

(** ** The outside world *)

(** What [open("loop_features.json")] and [json.load] find: no file; a file
    whose content is not decodable as JSON, on which [json.load] raises
    [JSONDecodeError]; or a JSON array of objects, decoded to a list of
    records.  JSON of any other shape (an object, a string, a number,
    [null], an array of other values) is outside the model. *)
Inductive features_source :=
| Missing
| NotJSON
| Features (records : list loop).

Inductive message :=
| OptPassFailed (e : exn)
| Runtime (tag : string) (elapsed : float).

(** What the environment does to the outside world, in order.  A [Spawn]
    records the command line, the contents of [loop_actions.json] when the
    child process starts ([None]: no such file) and its exit status. *)
Inductive event :=
| Spawn (cmd : list string) (directives : option (gmap string metadata)) (rc : Z)
| Wrote (content : gmap string metadata)
| Stdout (msg : message).

Record World := {
  features_file : features_source;
  actions_file : option (gmap string metadata);
  exit_status : nat -> Z;
  clock : nat -> float;
  spawned : nat;
  clock_reads : nat;
  trace : list event;
}.

Definition log (ev : event) (w : World) : World :=
  {| features_file := features_file w; actions_file := actions_file w;
     exit_status := exit_status w; clock := clock w;
     spawned := spawned w; clock_reads := clock_reads w;
     trace := trace w ++ [ev] |}.

(** [with open("loop_features.json","r") as f: json.load(f)]. *)
Definition load_features : M World (list loop) :=
  fun w =>
    match features_file w with
    | Missing => (Raise FileNotFoundError, w)
    | NotJSON => (Raise JSONDecodeError, w)
    | Features records => (Ok records, w)
    end.

(** [with open("loop_actions.json","w") as f: json.dump(act_map, f)], on a
    file that can be written. *)
Definition dump_actions (act_map : gmap string metadata) : M World unit :=
  fun w =>
    (Ok tt,
     log (Wrote act_map)
       {| features_file := features_file w; actions_file := Some act_map;
          exit_status := exit_status w; clock := clock w;
          spawned := spawned w; clock_reads := clock_reads w;
          trace := trace w |}).

(** [subprocess.check_call(cmd)] on a program that can be started (the
    docstring of [run_binary] requires [clang] and [opt] in PATH): the child
    runs to completion; a non-zero exit status raises [CalledProcessError].
    The [OSError] of a program that cannot be started is outside the
    model. *)
Definition check_call (cmd : list string) : M World unit :=
  fun w =>
    let rc := exit_status w (spawned w) in
    let w' :=
      log (Spawn cmd (actions_file w) rc)
        {| features_file := features_file w; actions_file := actions_file w;
           exit_status := exit_status w; clock := clock w;
           spawned := S (spawned w); clock_reads := clock_reads w;
           trace := trace w |} in
    if rc =? 0 then (Ok tt, w') else (Raise (CalledProcessError rc cmd), w').

(** [time.time()]. *)
Definition time_time : M World float :=
  fun w =>
    (Ok (clock w (clock_reads w)),
     {| features_file := features_file w; actions_file := actions_file w;
        exit_status := exit_status w; clock := clock w;
        spawned := spawned w; clock_reads := S (clock_reads w);
        trace := trace w |}).

Definition print (msg : message) : M World unit :=
  fun w => (Ok tt, log (Stdout msg) w).

(** ** numpy *)

Inductive pynum :=
| PyInt (z : Z)
| PyFloat (d : float).

(** [float(z)]: the nearest double, or [OverflowError] when [z] is too large
    for a double. *)
Definition float_of_int (z : Z) : result float :=
  match Float.of_Z z with
  | S754_infinity _ => Raise OverflowError
  | d => Ok d
  end.

(** One element of [np.array(xs, dtype=np.float32)]: a Python number is
    read as a C double and stored as a float. *)
Definition np_float32 (x : pynum) : result float32 :=
  match x with
  | PyInt z =>
      match float_of_int z with
      | Ok d => Ok (Float32.of_float d)
      | Raise e => Raise e
      end
  | PyFloat d => Ok (Float32.of_float d)
  end.

(** Apply a function that may raise to the elements of a list, from the
    left, stopping at the first exception. *)
Fixpoint map_result {A B} (f : A -> result B) (l : list A) : result (list B) :=
  match l with
  | [] => Ok []
  | x :: l' =>
      match f x with
      | Raise e => Raise e
      | Ok y =>
          match map_result f l' with
          | Raise e => Raise e
          | Ok ys => Ok (y :: ys)
          end
      end
  end.

Definition np_array_float32 (xs : list pynum) : result obs :=
  map_result np_float32 xs.

(** [np.concatenate(arrays)]: needs at least one array. *)
Definition np_concatenate (arrays : list obs) : result obs :=
  match arrays with
  | [] => Raise ValueError
  | _ => Ok (concat arrays)
  end.

(** [np.zeros(n, dtype=np.float32)]: a negative dimension is refused. *)
Definition np_zeros (n : Z) : result obs :=
  if n <? 0 then Raise ValueError else Ok (repeat_list Float32.zero n).

(** ** The environment object *)

(** The fields of [self].  The mode is chosen by the constructor and never
    assigned again; it is the index of the type, so that the type of the
    action [step] takes can depend on it. *)
Record Env {mode : bool} := {
  ir_path : string;
  binary_path : string;
  loops : list loop;
  n_loops : Z;
  obs_dim : Z;
  action_space : space;
  observation_space : space;
  baseline_time : float;
  current_loop_idx : Z;
}.
Arguments Env mode : clear implicits.

Definition single_loop_mode {mode} (self : Env mode) : bool := mode.

Definition set_current_loop_idx {mode} (i : Z) (self : Env mode) : Env mode :=
  {| ir_path := ir_path self; binary_path := binary_path self;
     loops := loops self; n_loops := n_loops self; obs_dim := obs_dim self;
     action_space := action_space self;
     observation_space := observation_space self;
     baseline_time := baseline_time self; current_loop_idx := i |}.

(** The state of a method call: the object and the outside world. *)
Abbreviation St mode := (Env mode * World)%type (only parsing).

Definition get_self {mode} : M (St mode) (Env mode) :=
  fun st => (Ok (fst st), st).

Definition modify_self {mode} (f : Env mode -> Env mode) : M (St mode) unit :=
  fun st => (Ok tt, (f (fst st), snd st)).

Definition lift {mode A} (m : M World A) : M (St mode) A :=
  fun st =>
    match m (snd st) with
    | (r, w') => (r, (fst st, w'))
    end.

(** ** The class [LoopVectorizeEnv] *)

Module LoopVectorizeEnv.

Definition default_binary_path : string := "./a.out".
Definition default_single_loop_mode : bool := true.

Definition action_to_metadata (action : Z) : metadata :=
  if action =? 0 then Disable true
  else if action =? 1 then Width 2
  else if action =? 2 then Width 4
  else if action =? 3 then Width 8
  else Disable true.

(** The four command lines of [run_binary]. *)
Definition cmd_pass (ir_path : string) : list string :=
  ["opt"; "-load-pass-plugin=./LoopRLOpt.so"; "-passes=loop-rl-opt";
   ir_path; "-S"; "-o"; "tmp_opt.ll"].

Definition cmd_vec : list string :=
  ["opt"; "-loop-vectorize"; "tmp_opt.ll"; "-S"; "-o"; "tmp_vec.ll"].

Definition cmd_clang (self_binary_path : string) : list string :=
  ["clang"; "tmp_vec.ll"; "-O3"; "-o"; self_binary_path].

Definition cmd_run (self_binary_path : string) : list string :=
  ["./" +:+ self_binary_path].

(** [run_binary] reads [self.binary_path] only, which is why it can be
    called from the constructor; the field is its first argument. *)
Definition run_binary (self_binary_path ir_path tag : string) : M World float :=
  try_except (check_call (cmd_pass ir_path))
    (fun e => print (OptPassFailed e) ;; raise e) ;;
  check_call cmd_vec ;;
  check_call (cmd_clang self_binary_path) ;;
  t0 <- time_time ;;
  check_call (cmd_run self_binary_path) ;;
  t1 <- time_time ;;
  let elapsed := Float.sub t1 t0 in
  print (Runtime tag elapsed) ;;
  ret elapsed.

Definition __init__ (ir_path binary_path : string) (single_loop_mode : bool)
  : M World (Env single_loop_mode) :=
  loops <- load_features ;;
  let n_loops := len loops in
  let obs_dim := 6 in
  let spaces :=
    if single_loop_mode
    then (Discrete 4, Box (-1000000000) 1000000000 [obs_dim])
    else (MultiDiscrete (repeat_list 4 n_loops),
          Box (-1000000000) 1000000000 [n_loops * obs_dim]) in
  baseline_time <- run_binary binary_path ir_path "baseline" ;;
  ret {| ir_path := ir_path; binary_path := binary_path; loops := loops;
         n_loops := n_loops; obs_dim := obs_dim;
         action_space := fst spaces; observation_space := snd spaces;
         baseline_time := baseline_time; current_loop_idx := 0 |}.

Definition _feature_to_obs (loop : loop) : result obs :=
  let tri := get (trip_count_est loop) (-1) in
  match float_of_int tri with
  | Raise e => Raise e
  | Ok tri_f =>
      np_array_float32
        [PyInt (get (num_blocks loop) 0); PyInt (get (num_loads loop) 0);
         PyInt (get (num_stores loop) 0); PyInt (get (num_arith loop) 0);
         PyInt (get (num_calls loop) 0); PyFloat tri_f]
  end.

Definition reset {mode} : M (St mode) obs :=
  modify_self (set_current_loop_idx 0) ;;
  self <- get_self ;;
  if single_loop_mode self then
    loop <- pure (getitem (loops self) (current_loop_idx self)) ;;
    pure (_feature_to_obs loop)
  else
    allobs <- pure (map_result _feature_to_obs (loops self)) ;;
    pure (np_concatenate allobs).

(** The action a caller passes: an integer under [Discrete(4)]
    (single-loop mode), a vector of integers under [MultiDiscrete]. *)
Definition action_t (single_loop_mode : bool) : Type :=
  if single_loop_mode then Z else list Z.

(** [step], the branch [if self.single_loop_mode]. *)
Definition step_single (action : Z) : M (St true) (obs * float * bool * info) :=
  self <- get_self ;;
  let idx := current_loop_idx self in
  let act_map : gmap string metadata := ∅ in
  loop <- pure (getitem (loops self) idx) ;;
  loop_id <- pure (item "loop_id" (loop_id loop)) ;;
  let act_map := <[loop_id := action_to_metadata action]> act_map in
  lift (dump_actions act_map) ;;
  t <- lift (run_binary (binary_path self) (ir_path self) "trial") ;;
  let reward := Float.sub (baseline_time self) t in
  let done := true in
  let info := {| runtime := t |} in
  modify_self (fun self => set_current_loop_idx (current_loop_idx self + 1) self) ;;
  obs <- (if negb done then reset
          else self <- get_self ;; pure (np_zeros (obs_dim self))) ;;
  ret (obs, reward, done, info).

(** The loop [for idx, a in enumerate(action)] of the other branch,
    started at index [idx] with the act map built so far. *)
Fixpoint enumerate_actions (loops : list loop) (idx : Z) (action : list Z)
    (act_map : gmap string metadata) : result (gmap string metadata) :=
  match action with
  | [] => Ok act_map
  | a :: action' =>
      match getitem loops idx with
      | Raise e => Raise e
      | Ok loop =>
          match item "loop_id" (loop_id loop) with
          | Raise e => Raise e
          | Ok loop_id =>
              enumerate_actions loops (idx + 1) action'
                (<[loop_id := action_to_metadata a]> act_map)
          end
      end
  end.

(** [step], the branch [else]. *)
Definition step_multi (action : list Z) : M (St false) (obs * float * bool * info) :=
  self <- get_self ;;
  act_map <- pure (enumerate_actions (loops self) 0 action ∅) ;;
  lift (dump_actions act_map) ;;
  t <- lift (run_binary (binary_path self) (ir_path self) "trial") ;;
  let reward := Float.sub (baseline_time self) t in
  let done := true in
  let info := {| runtime := t |} in
  obs <- pure (np_zeros (n_loops self * obs_dim self)) ;;
  ret (obs, reward, done, info).

Definition step {mode} :
    St mode -> action_t mode ->
    result (obs * float * bool * info) * St mode :=
  match mode as mode
        return St mode -> action_t mode ->
               result (obs * float * bool * info) * St mode with
  | true => fun st action => step_single action st
  | false => fun st action => step_multi action st
  end.

End LoopVectorizeEnv.

Import LoopVectorizeEnv.

(** ** Vocabulary of the statements *)

(** The world [w] after [spawns] more child processes, [reads] more clock
    readings and the events [evs]; the files and the oracle are those of
    [w]. *)
Definition after (w : World) (spawns reads : nat) (evs : list event) : World :=
  {| features_file := features_file w; actions_file := actions_file w;
     exit_status := exit_status w; clock := clock w;
     spawned := spawns + spawned w; clock_reads := reads + clock_reads w;
     trace := trace w ++ evs |}.

(** The exit status of the [i]-th child process started from [w] on. *)
Definition nth_exit (w : World) (i : nat) : Z := exit_status w (i + spawned w).

(** The four stages of the next run of the toolchain all exit with 0. *)
Definition toolchain_succeeds (w : World) : Prop :=
  forall i : nat, (i < 4)%nat -> nth_exit w i = 0.

(** The command line of stage [k] of [run_binary]: apply, vectorize,
    compile, run. *)
Definition stage_cmd (self_binary_path ir_path : string) (k : nat) : list string :=
  match k with
  | O => cmd_pass ir_path
  | 1%nat => cmd_vec
  | 2%nat => cmd_clang self_binary_path
  | _ => cmd_run self_binary_path
  end.

(** The time the next run of the toolchain measures: the difference of the
    next two clock readings. *)
Definition elapsed_of (w : World) : float :=
  Float.sub (clock w (1 + clock_reads w)) (clock w (clock_reads w)).

(** The world once [act_map] is dumped to [loop_actions.json]. *)
Definition written (act_map : gmap string metadata) (w : World) : World :=
  snd (dump_actions act_map w).

(** The act map [step] builds from its action, in either mode. *)
Definition act_map_of {mode} (self : Env mode) :
    action_t mode -> result (gmap string metadata) :=
  match mode as mode
        return Env mode -> action_t mode -> result (gmap string metadata) with
  | true => fun self action =>
      match getitem (loops self) (current_loop_idx self) with
      | Raise e => Raise e
      | Ok l =>
          match item "loop_id" (loop_id l) with
          | Raise e => Raise e
          | Ok id => Ok (<[id := action_to_metadata action]> ∅)
          end
      end
  | false => fun self action => enumerate_actions (loops self) 0 action ∅
  end self.

(** What a call of [step] comes to, given the act map it builds, the object
    it leaves on success and the zero observation it returns. *)
Definition step_outcome {mode} (self : Env mode) (w : World)
    (act_map : result (gmap string metadata)) (self' : Env mode)
    (zeros : result obs)
    : result (obs * float * bool * info) * St mode :=
  match act_map with
  | Raise e => (Raise e, (self, w))
  | Ok m =>
      match run_binary (binary_path self) (ir_path self) "trial" (written m w) with
      | (Raise e, w') => (Raise e, (self, w'))
      | (Ok t, w') =>
          match zeros with
          | Raise e => (Raise e, (self', w'))
          | Ok z =>
              (Ok (z, Float.sub (baseline_time self) t, true, {| runtime := t |}),
               (self', w'))
          end
      end
  end.

(** The object invariant the constructor establishes. *)
Definition wf_env {mode} (self : Env mode) : Prop :=
  n_loops self = len (loops self) /\ obs_dim self = 6.

(** The states of the object a caller can reach: it constructs the object,
    then calls [reset] and [step] in any order, with any action, the outside
    world being arbitrary at each call. *)
Inductive reachable {mode} : Env mode -> Prop :=
| reach_init ir_path binary_path w self w' :
    __init__ ir_path binary_path mode w = (Ok self, w') -> reachable self
| reach_reset self w r self' w' :
    reachable self -> reset (self, w) = (r, (self', w')) -> reachable self'
| reach_step self w action r self' w' :
    reachable self -> step (self, w) action = (r, (self', w')) ->
    reachable self'.

(** The six-field encoding of a record, in the words of the specification:
    the five counts (0 when absent) and the trip count estimate (-1 when
    absent), each cast to a float. *)
Definition cast (z : Z) : float32 := Float32.of_float (Float.of_Z z).

Definition encode (l : loop) : obs :=
  [cast (get (num_blocks l) 0); cast (get (num_loads l) 0);
   cast (get (num_stores l) 0); cast (get (num_arith l) 0);
   cast (get (num_calls l) 0); cast (get (trip_count_est l) (-1))].

(** The integers [float] accepts, and the records all of whose fields it
    accepts. *)
Definition in_float_range (z : Z) : bool := is_Ok (float_of_int z).

Definition loop_in_float_range (l : loop) : bool :=
  forallb in_float_range
    [get (num_blocks l) 0; get (num_loads l) 0; get (num_stores l) 0;
     get (num_arith l) 0; get (num_calls l) 0; get (trip_count_est l) (-1)].

(** A float with the sign [s] that is neither a zero nor a NaN. *)
Definition signed (s : bool) (f : spec_float) : Prop :=
  match f with
  | S754_finite s' _ _ | S754_infinity s' => s' = s
  | _ => False
  end.

(** The mantissa of a float once its exponent is lowered to [ez], with its
    sign. *)
Definition aligned (s : bool) (m : positive) (e ez : Z) : Z :=
  cond_Zopp s (Z.pos (fst (shl_align m e ez))).

(** ** Concrete runs *)

Definition L1 : loop :=
  {| loop_id := Some "L1"; num_blocks := Some 3; num_loads := Some 2;
     num_stores := Some 1; num_arith := Some 7; num_calls := Some 0;
     trip_count_est := None |}.

Definition L2 : loop :=
  {| loop_id := Some "L2"; num_blocks := Some 1; num_loads := None;
     num_stores := Some 1; num_arith := Some 5; num_calls := Some 2;
     trip_count_est := Some 4294967296 |}.

Definition L3 : loop :=
  {| loop_id := Some "L3"; num_blocks := Some 4; num_loads := Some 6;
     num_stores := Some 2; num_arith := Some 9; num_calls := Some 0;
     trip_count_est := Some 128 |}.

(** A world in which the child process number [bad] exits with [rc], every
    other one with 0, and the [k]-th clock reading is [k * k] seconds. *)
Definition world (features : features_source)
    (actions : option (gmap string metadata)) (bad : nat) (rc : Z) : World :=
  {| features_file := features; actions_file := actions;
     exit_status := fun i => if Nat.eqb i bad then rc else 0;
     clock := fun k => Float.of_Z (Z.of_nat (k * k));
     spawned := 0; clock_reads := 0; trace := [] |}.

(** The same with no failing child process. *)
Definition calm (features : features_source)
    (actions : option (gmap string metadata)) : World :=
  world features actions 0 0.

Definition env_single (idx : Z) : Env true :=
  {| ir_path := "benchmark.ll"; binary_path := "a.out"; loops := [L1; L2];
     n_loops := 2; obs_dim := 6; action_space := Discrete 4;
     observation_space := Box (-1000000000) 1000000000 [6];
     baseline_time := Float.of_Z 2; current_loop_idx := idx |}.

Definition env_multi : Env false :=
  {| ir_path := "benchmark.ll"; binary_path := "a.out"; loops := [L1; L2; L3];
     n_loops := 3; obs_dim := 6; action_space := MultiDiscrete [4; 4; 4];
     observation_space := Box (-1000000000) 1000000000 [18];
     baseline_time := Float.of_Z 2; current_loop_idx := 0 |}.

(** ** Vocabulary of the further properties *)

(** The directives the toolchain understands: [{"disable": true}] and
    [{"width": w}] with [w] one of 2, 4, 8. *)
Definition valid_metadata (md : metadata) : Prop :=
  md = Disable true \/ md = Width 2 \/ md = Width 4 \/ md = Width 8.

(** The six numbers [_feature_to_obs] reads from a record. *)
Definition loop_fields (l : loop) : list Z :=
  [get (num_blocks l) 0; get (num_loads l) 0; get (num_stores l) 0;
   get (num_arith l) 0; get (num_calls l) 0; get (trip_count_est l) (-1)].

(** The length of the observations of an environment over [n] records. *)
Definition obs_length (mode : bool) (n : nat) : nat :=
  if mode then 6%nat else (6 * n)%nat.

(** A record without a loop id, a record whose trip count is beyond the
    doubles, and an environment over any records. *)
Definition Lanon : loop :=
  {| loop_id := None; num_blocks := Some 2; num_loads := Some 1;
     num_stores := Some 1; num_arith := Some 3; num_calls := Some 0;
     trip_count_est := Some 16 |}.

Definition Lhuge : loop :=
  {| loop_id := Some "L9"; num_blocks := Some 2; num_loads := Some 1;
     num_stores := Some 1; num_arith := Some 3; num_calls := Some 0;
     trip_count_est := Some (2 ^ 1024) |}.

Definition env_over (mode : bool) (ls : list loop) (idx : Z) : Env mode :=
  {| ir_path := "benchmark.ll"; binary_path := "a.out"; loops := ls;
     n_loops := len ls; obs_dim := 6;
     action_space :=
       if mode then Discrete 4 else MultiDiscrete (repeat_list 4 (len ls));
     observation_space :=
       Box (-1000000000) 1000000000 [if mode then 6 else len ls * 6];
     baseline_time := Float.of_Z 2; current_loop_idx := idx |}.

(** * Facts on [SpecFloat]

    The sign of a rounded difference, for any format with at least one bit
    of mantissa. *)

Section SpecFloatFacts.

Variables prec emax : Z.
Hypothesis prec_pos : 0 < prec.

Lemma digits2_pos_size (m : positive) : digits2_pos m = Pos.size m.
Proof. induction m as [m IH|m IH|]; simpl; congruence. Qed.

Lemma digits2_pos_lower (m : positive) :
  2 ^ (Z.pos (digits2_pos m) - 1) <= Z.pos m.
Proof.
  rewrite digits2_pos_size.
  pose proof (Pos.size_le m) as H.
  apply Pos2Z.pos_le_pos in H.
  rewrite Pos2Z.inj_pow in H. change (Z.pos m~0) with (2 * Z.pos m) in H.
  replace (Z.pos (Pos.size m)) with (Z.succ (Z.pos (Pos.size m) - 1)) in H by lia.
  rewrite Z.pow_succ_r in H by lia. lia.
Qed.

Lemma digits2_pos_upper (m : positive) :
  Z.pos m < 2 ^ Z.pos (digits2_pos m).
Proof.
  rewrite digits2_pos_size.
  pose proof (Pos.size_gt m) as H.
  apply Pos2Z.pos_lt_pos in H. now rewrite Pos2Z.inj_pow in H.
Qed.

Lemma shr_1_div2 (mrs : shr_record) :
  0 <= shr_m mrs -> shr_m (shr_1 mrs) = shr_m mrs / 2.
Proof.
  destruct mrs as [m r s]; simpl. intros Hm.
  destruct m as [|p|p]; [reflexivity| |lia].
  destruct p as [p|p|]; simpl shr_m.
  - apply Z.div_unique with (r := 1); lia.
  - apply Z.div_unique with (r := 0); lia.
  - reflexivity.
Qed.

Lemma iter_shr_1_div (p : positive) (mrs : shr_record) :
  0 <= shr_m mrs ->
  shr_m (SpecFloat.iter_pos shr_1 p mrs) = shr_m mrs / 2 ^ Z.pos p.
Proof.
  revert mrs. induction p as [p IH|p IH|]; intros mrs Hm; simpl SpecFloat.iter_pos.
  - assert (H1 : 0 <= shr_m (shr_1 mrs)).
    { rewrite shr_1_div2 by assumption. apply Z.div_pos; lia. }
    assert (H2 : 0 <= shr_m (SpecFloat.iter_pos shr_1 p (shr_1 mrs))).
    { rewrite IH by assumption. apply Z.div_pos; lia. }
    rewrite IH, IH, shr_1_div2 by assumption.
    rewrite !Z.div_div by lia.
    f_equal. replace (Z.pos p~1) with (1 + Z.pos p + Z.pos p) by lia.
    rewrite !Z.pow_add_r by lia. rewrite Z.pow_1_r. ring.
  - assert (H2 : 0 <= shr_m (SpecFloat.iter_pos shr_1 p mrs)).
    { rewrite IH by assumption. apply Z.div_pos; lia. }
    rewrite IH, IH by assumption.
    rewrite Z.div_div by lia.
    f_equal. replace (Z.pos p~0) with (Z.pos p + Z.pos p) by lia.
    rewrite Z.pow_add_r by lia. ring.
  - apply shr_1_div2. assumption.
Qed.

Lemma shr_record_of_loc_m (m : Z) (l : location) :
  shr_m (shr_record_of_loc m l) = m.
Proof. destruct l as [|[]]; reflexivity. Qed.

(** Above the least exponent, the shift of [shr_fexp] never loses a
    positive mantissa whole. *)
Lemma shr_fexp_pos (m e : Z) (l : location) :
  0 < m -> emin prec emax <= e ->
  0 < shr_m (fst (shr_fexp prec emax m e l)) /\
  emin prec emax <= snd (shr_fexp prec emax m e l).
Proof.
  intros Hm He. unfold shr_fexp, shr.
  destruct m as [|p|p]; try lia. simpl Zdigits2.
  pose proof (digits2_pos_lower p) as Hlow.
  set (d := Z.pos (digits2_pos p)) in *.
  assert (Hn : fexp prec emax (d + e) - e <= d - 1).
  { unfold fexp. lia. }
  destruct (fexp prec emax (d + e) - e) as [|n|n] eqn:En; simpl;
    rewrite ?shr_record_of_loc_m; try (split; lia).
  rewrite iter_shr_1_div by (rewrite shr_record_of_loc_m; lia).
  rewrite shr_record_of_loc_m. split; [|lia].
  apply Z.div_str_pos. split; [lia|].
  apply Z.le_trans with (2 ^ (d - 1)); [|assumption].
  apply Z.pow_le_mono_r; lia.
Qed.

Lemma round_nearest_even_ge (m : Z) (l : location) :
  m <= round_nearest_even m l.
Proof. destruct l as [|[]]; simpl; try lia. destruct (Z.even m); lia. Qed.

Lemma binary_round_aux_signed (s : bool) (m e : Z) (l : location) :
  0 < m -> emin prec emax <= e ->
  signed s (binary_round_aux prec emax s m e l).
Proof.
  intros Hm He. unfold binary_round_aux.
  pose proof (shr_fexp_pos m e l Hm He) as [H1 H1e].
  destruct (shr_fexp prec emax m e l) as [mrs' e'] eqn:E1. simpl in H1, H1e.
  pose proof (round_nearest_even_ge (shr_m mrs') (loc_of_shr_record mrs')) as Hr.
  set (m1 := round_nearest_even (shr_m mrs') (loc_of_shr_record mrs')) in *.
  assert (Hm1 : 0 < m1) by lia.
  pose proof (shr_fexp_pos m1 e' loc_Exact Hm1 H1e) as [H2 _].
  destruct (shr_fexp prec emax m1 e' loc_Exact) as [mrs'' e''] eqn:E2.
  simpl in H2.
  destruct (shr_m mrs'') as [|q|q]; try lia.
  destruct (e'' <=? emax - prec); reflexivity.
Qed.

Lemma shl_align_exponent (m : positive) (e e' : Z) :
  snd (shl_align m e e') = Z.min e e'.
Proof.
  unfold shl_align. destruct (e' - e) as [|d|d] eqn:E; simpl; lia.
Qed.

Lemma shl_align_mantissa (m : positive) (e e' : Z) :
  e' <= e -> Z.pos (fst (shl_align m e e')) = Z.pos m * 2 ^ (e - e').
Proof.
  intros Hle. unfold shl_align.
  destruct (e' - e) as [|d|d] eqn:E; simpl; try lia.
  - replace (e - e') with 0 by lia. lia.
  - change (Pos.iter xO m d) with (shift_pos d m).
    rewrite shift_pos_correct, Z.pow_pos_fold.
    replace (e - e') with (Z.pos d) by lia. ring.
Qed.

Lemma binary_round_signed (s : bool) (m : positive) (e : Z) :
  emin prec emax <= e -> signed s (binary_round prec emax s m e).
Proof.
  intros He. unfold binary_round.
  pose proof (shl_align_exponent m e (fexp prec emax (Z.pos (digits2_pos m) + e))) as Hz.
  destruct (shl_align m e (fexp prec emax (Z.pos (digits2_pos m) + e)))
    as [mz ez]. simpl in Hz.
  apply binary_round_aux_signed; [lia|].
  subst ez. unfold fexp. lia.
Qed.

(** What [bounded] says of a mantissa and its exponent. *)
Lemma bounded_canonical (m : positive) (e : Z) :
  bounded prec emax m e = true ->
  emin prec emax <= e /\
  Z.pos (digits2_pos m) <= prec /\
  (emin prec emax < e -> Z.pos (digits2_pos m) = prec).
Proof.
  unfold bounded, canonical_mantissa, fexp. intros H.
  apply andb_prop in H as [H _]. apply Z.eqb_eq in H. lia.
Qed.

Lemma bounded_exponent_lt (mx my : positive) (ex ey : Z) :
  bounded prec emax mx ex = true -> bounded prec emax my ey = true ->
  ex < ey -> Z.pos mx < Z.pos my * 2 ^ (ey - ex).
Proof.
  intros Hx Hy Hlt.
  apply bounded_canonical in Hx as (Hex & Hdx & _).
  apply bounded_canonical in Hy as (_ & _ & Hdy).
  specialize (Hdy ltac:(lia)).
  pose proof (digits2_pos_upper mx) as Hux.
  pose proof (digits2_pos_lower my) as Hly. rewrite Hdy in Hly.
  assert (H1 : 2 ^ Z.pos (digits2_pos mx) <= 2 ^ prec)
    by (apply Z.pow_le_mono_r; lia).
  assert (H2 : 2 ^ 1 <= 2 ^ (ey - ex)) by (apply Z.pow_le_mono_r; lia).
  assert (H3 : 2 ^ prec = 2 * 2 ^ (prec - 1)).
  { replace prec with (Z.succ (prec - 1)) at 1 by lia.
    apply Z.pow_succ_r. lia. }
  rewrite Z.pow_1_r in H2. nia.
Qed.

Lemma SFcompare_aligned (sx : bool) (mx : positive) (ex : Z)
    (sy : bool) (my : positive) (ey : Z) :
  bounded prec emax mx ex = true -> bounded prec emax my ey = true ->
  SFcompare (S754_finite sx mx ex) (S754_finite sy my ey) =
  Some (aligned sx mx ex (Z.min ex ey) ?= aligned sy my ey (Z.min ex ey)).
Proof.
  intros Hx Hy. unfold aligned.
  rewrite !shl_align_mantissa by lia.
  assert (Hpx : 0 < Z.pos mx * 2 ^ (ex - Z.min ex ey))
    by (apply Z.mul_pos_pos; [lia | apply Z.pow_pos_nonneg; lia]).
  assert (Hpy : 0 < Z.pos my * 2 ^ (ey - Z.min ex ey))
    by (apply Z.mul_pos_pos; [lia | apply Z.pow_pos_nonneg; lia]).
  assert (Hcmp :
    (Z.pos mx * 2 ^ (ex - Z.min ex ey) ?= Z.pos my * 2 ^ (ey - Z.min ex ey)) =
    match ex ?= ey with
    | Lt => Lt
    | Gt => Gt
    | Eq => Pos.compare_cont Eq mx my
    end).
  { destruct (Z.compare_spec ex ey) as [Heq|Hlt|Hgt].
    - subst ey. rewrite Z.min_id, Z.sub_diag, Z.pow_0_r, !Z.mul_1_r.
      reflexivity.
    - apply Z.compare_lt_iff.
      replace (Z.min ex ey) with ex by lia.
      rewrite Z.sub_diag, Z.pow_0_r, Z.mul_1_r.
      apply bounded_exponent_lt; assumption.
    - apply Z.compare_gt_iff.
      replace (Z.min ex ey) with ey by lia.
      rewrite Z.sub_diag, Z.pow_0_r, Z.mul_1_r.
      apply bounded_exponent_lt; assumption. }
  set (X := Z.pos mx * 2 ^ (ex - Z.min ex ey)) in *.
  set (Y := Z.pos my * 2 ^ (ey - Z.min ex ey)) in *.
  destruct sx, sy; simpl.
  - f_equal. rewrite Z.compare_opp, (Z.compare_antisym X Y), Hcmp.
    destruct (ex ?= ey); reflexivity.
  - f_equal. symmetry. apply Z.compare_lt_iff. lia.
  - f_equal. symmetry. apply Z.compare_gt_iff. lia.
  - f_equal. symmetry. exact Hcmp.
Qed.

(** The sign of a difference is the result of the comparison. *)
Lemma SFsub_sign (x y : spec_float) :
  SFfinite prec emax x = true -> SFfinite prec emax y = true ->
  match SFcompare x y with
  | Some Gt => signed false (SFsub prec emax x y)
  | Some Lt => signed true (SFsub prec emax x y)
  | Some Eq => exists s, SFsub prec emax x y = S754_zero s
  | None => False
  end.
Proof.
  destruct x as [sx| | |sx mx ex], y as [sy| | |sy my ey];
    try discriminate; simpl SFfinite; intros Hx Hy.
  - simpl. destruct sx, sy; eauto.
  - simpl. destruct sy; reflexivity.
  - simpl. destruct sx; reflexivity.
  - rewrite SFcompare_aligned by assumption.
    unfold SFsub. fold (aligned sx mx ex (Z.min ex ey)).
    fold (aligned sy my ey (Z.min ex ey)).
    set (X := aligned sx mx ex (Z.min ex ey)).
    set (Y := aligned sy my ey (Z.min ex ey)).
    apply bounded_canonical in Hx as (Hex & _).
    apply bounded_canonical in Hy as (Hey & _).
    assert (Hez : emin prec emax <= Z.min ex ey) by lia.
    destruct (Z.compare_spec X Y) as [Heq|Hlt|Hgt].
    + exists false. replace (X - Y) with 0 by lia. reflexivity.
    + destruct (X - Y) as [|p|p] eqn:E; try lia.
      simpl. apply binary_round_signed. assumption.
    + destruct (X - Y) as [|p|p] eqn:E; try lia.
      simpl. apply binary_round_signed. assumption.
Qed.

(** *** When rounding stays finite *)

Lemma Zdigits2_nonneg (m : Z) : 0 <= Zdigits2 m.
Proof. destruct m; simpl; lia. Qed.

Lemma Zdigits2_le_of_lt_pow (m k : Z) :
  0 <= k -> 0 <= m < 2 ^ k -> Zdigits2 m <= k.
Proof.
  intros Hk [Hm Hlt]. destruct m as [|p|p]; simpl; try lia.
  pose proof (digits2_pos_lower p) as Hlow.
  assert (H : Z.pos (digits2_pos p) - 1 < k).
  { apply (Z.pow_lt_mono_r_iff 2); lia. }
  lia.
Qed.

Lemma Zdigits2_lt_pow (m : Z) : 0 <= m -> m < 2 ^ Zdigits2 m.
Proof.
  destruct m as [|p|p]; simpl; try lia. intros _. apply digits2_pos_upper.
Qed.

Lemma shr_fexp_exponent (m e : Z) (l : location) :
  snd (shr_fexp prec emax m e l) = Z.max e (fexp prec emax (Zdigits2 m + e)).
Proof.
  unfold shr_fexp, shr.
  destruct (fexp prec emax (Zdigits2 m + e) - e) eqn:E; simpl; lia.
Qed.

Lemma shr_fexp_mantissa (m e : Z) (l : location) :
  0 <= m -> 0 <= shr_m (fst (shr_fexp prec emax m e l)) <= m.
Proof.
  intros Hm. unfold shr_fexp, shr.
  destruct (fexp prec emax (Zdigits2 m + e) - e) eqn:E; simpl;
    rewrite ?shr_record_of_loc_m; try lia.
  rewrite iter_shr_1_div by (rewrite shr_record_of_loc_m; lia).
  rewrite shr_record_of_loc_m. split.
  - apply Z.div_pos; lia.
  - apply Z.div_le_upper_bound; [lia|].
    assert (0 < 2 ^ Z.pos p) by (apply Z.pow_pos_nonneg; lia).
    nia.
Qed.

Lemma round_nearest_even_le (m : Z) (l : location) :
  round_nearest_even m l <= m + 1.
Proof. destruct l as [|[]]; simpl; try lia. destruct (Z.even m); lia. Qed.

Lemma fexp_mono (a b : Z) : a <= b -> fexp prec emax a <= fexp prec emax b.
Proof. unfold fexp. lia. Qed.

(** The rounding of [m * 2^e] with [m < 2^d] overflows only when the exponent it settles
    on is beyond the format. *)
Lemma binary_round_aux_finite (s : bool) (m e : Z) (l : location) (d : Z) :
  0 < m -> m < 2 ^ d -> 0 <= d ->
  Z.max e (fexp prec emax (d + 1 + Z.max e (fexp prec emax (d + e)))) <= emax - prec ->
  forall s', binary_round_aux prec emax s m e l <> S754_infinity s'.
Proof.
  intros Hm Hd Hd0 Hbound s'. unfold binary_round_aux.
  pose proof (shr_fexp_exponent m e l) as He1.
  pose proof (shr_fexp_mantissa m e l ltac:(lia)) as Hm1.
  destruct (shr_fexp prec emax m e l) as [mrs' e']. simpl in He1, Hm1.
  pose proof (round_nearest_even_le (shr_m mrs') (loc_of_shr_record mrs')) as Hr.
  pose proof (round_nearest_even_ge (shr_m mrs') (loc_of_shr_record mrs')) as Hr'.
  set (m1 := round_nearest_even (shr_m mrs') (loc_of_shr_record mrs')) in *.
  pose proof (shr_fexp_exponent m1 e' loc_Exact) as He2.
  destruct (shr_fexp prec emax m1 e' loc_Exact) as [mrs'' e'']. simpl in He2.
  destruct (shr_m mrs''); try discriminate.
  destruct (Z.leb_spec e'' (emax - prec)) as [_|Hgt]; [discriminate|].
  exfalso.
  assert (Hdm : Zdigits2 m <= d) by (apply Zdigits2_le_of_lt_pow; lia).
  assert (Hdm1 : Zdigits2 m1 <= d + 1).
  { apply Zdigits2_le_of_lt_pow; [lia|]. split; [lia|].
    rewrite Z.pow_add_r, Z.pow_1_r by lia. lia. }
  pose proof (fexp_mono (Zdigits2 m + e) (d + e) ltac:(lia)) as F1.
  assert (He' : e' <= Z.max e (fexp prec emax (d + e))) by lia.
  pose proof (fexp_mono (Zdigits2 m1 + e') (d + 1 + Z.max e (fexp prec emax (d + e))) ltac:(lia)) as F2.
  pose proof (fexp_mono (d + e) (d + 1 + Z.max e (fexp prec emax (d + e))) ltac:(lia)) as F3.
  lia.
Qed.
End SpecFloatFacts.

Lemma SFcompare_antisym (prec emax : Z) (x y : spec_float) :
  0 < prec ->
  SFfinite prec emax x = true -> SFfinite prec emax y = true ->
  SFcompare y x = option_map CompOpp (SFcompare x y).
Proof.
  intros Hprec.
  destruct x as [sx| | |sx mx ex], y as [sy| | |sy my ey];
    try discriminate; simpl SFfinite; intros Hx Hy.
  - reflexivity.
  - simpl. destruct sy; reflexivity.
  - simpl. destruct sx; reflexivity.
  - rewrite !(SFcompare_aligned prec emax) by assumption.
    rewrite (Z.min_comm ey ex). simpl. f_equal. apply Z.compare_antisym.
Qed.

Lemma signed_false_pos (f : spec_float) :
  signed false f -> SFltb (S754_zero false) f = true.
Proof. destruct f as [| | |s m e]; simpl; try tauto; intros ->; reflexivity. Qed.

Lemma signed_true_neg (f : spec_float) :
  signed true f -> SFltb f (S754_zero false) = true.
Proof. destruct f as [| | |s m e]; simpl; try tauto; intros ->; reflexivity. Qed.

(** The sign of [x - y] on Python floats that are numbers. *)
Lemma Float_sub_sign (x y : spec_float) :
  Float.finite x = true -> Float.finite y = true ->
  (Float.ltb y x = true -> Float.ltb Float.zero (Float.sub x y) = true) /\
  (Float.ltb x y = true -> Float.ltb (Float.sub x y) Float.zero = true) /\
  (Float.eqb y x = true -> Float.eqb (Float.sub x y) Float.zero = true).
Proof.
  unfold Float.finite, Float.ltb, Float.eqb, Float.sub, Float.zero.
  intros Hx Hy.
  assert (Hprec : 0 < Float.prec) by reflexivity.
  pose proof (SFsub_sign Float.prec Float.emax Hprec x y Hx Hy) as Hs.
  pose proof (SFcompare_antisym Float.prec Float.emax x y Hprec Hx Hy) as Ha.
  unfold SFltb at 1 3, SFeqb at 1. rewrite Ha.
  destruct (SFcompare x y) as [[| |]|]; simpl; try tauto; repeat split;
    try discriminate; intros _.
  - destruct Hs as [s ->]. reflexivity.
  - apply signed_true_neg. assumption.
  - apply signed_false_pos. assumption.
Qed.

Lemma shl_align_mantissa_min (m : positive) (e e' : Z) :
  Z.pos (fst (shl_align m e e')) = Z.pos m * 2 ^ (e - Z.min e e').
Proof.
  destruct (Z.le_gt_cases e' e) as [Hle|Hgt].
  - rewrite shl_align_mantissa by assumption.
    replace (Z.min e e') with e' by lia. reflexivity.
  - unfold shl_align. replace (Z.min e e') with e by lia.
    rewrite Z.sub_diag, Z.pow_0_r, Z.mul_1_r.
    destruct (e' - e) eqn:E; try lia; reflexivity.
Qed.

(** [float] accepts every integer of 64 bits. *)
Lemma in_float_range_64 (z : Z) : Z.abs z < 2 ^ 64 -> in_float_range z = true.
Proof.
  intros Hz. unfold in_float_range, float_of_int, Float.of_Z, binary_normalize.
  assert (Hnot : forall s m, Z.pos m < 2 ^ 64 ->
            forall s', binary_round Float.prec Float.emax s m 0 <> S754_infinity s').
  { intros s m Hm s'. unfold binary_round.
    set (fe := fexp Float.prec Float.emax (Z.pos (digits2_pos m) + 0)).
    pose proof (shl_align_exponent m 0 fe) as Hez.
    pose proof (shl_align_mantissa_min m 0 fe) as Hmz.
    assert (Hd : 0 < Z.pos (digits2_pos m) <= 64).
    { split; [lia|]. apply (Zdigits2_le_of_lt_pow (Z.pos m) 64); lia. }
    assert (Hfe : -52 <= fe <= 11).
    { unfold fe, fexp, emin, Float.prec, Float.emax. lia. }
    destruct (shl_align m 0 fe) as [mz ez]. simpl in Hez, Hmz. subst ez.
    apply (binary_round_aux_finite Float.prec Float.emax
             s (Z.pos mz) (Z.min 0 fe) loc_Exact (64 - Z.min 0 fe)).
    - lia.
    - rewrite Hmz. replace (64 - Z.min 0 fe) with (64 + (0 - Z.min 0 fe)) by lia.
      rewrite Z.pow_add_r by lia.
      apply Z.mul_lt_mono_pos_r; [apply Z.pow_pos_nonneg; lia|assumption].
    - lia.
    - unfold fexp, emin, Float.prec, Float.emax. lia. }
  destruct z as [|m|m]; [reflexivity| |].
  - specialize (Hnot false m Hz).
    destruct (binary_round Float.prec Float.emax false m 0); try reflexivity.
    exfalso. exact (Hnot s eq_refl).
  - specialize (Hnot true m Hz).
    destruct (binary_round Float.prec Float.emax true m 0); try reflexivity.
    exfalso. exact (Hnot s eq_refl).
Qed.

(** Hence every record whose fields are integers of 64 bits is within the
    range of [float]. *)
Lemma loop_in_float_range_64 (l : loop) :
  Forall (fun z => Z.abs z < 2 ^ 64)
    [get (num_blocks l) 0; get (num_loads l) 0; get (num_stores l) 0;
     get (num_arith l) 0; get (num_calls l) 0; get (trip_count_est l) (-1)] ->
  loop_in_float_range l = true.
Proof.
  intros H. unfold loop_in_float_range.
  apply forallb_forall. intros z Hz. apply in_float_range_64.
  rewrite Forall_forall in H. apply H. apply list_elem_of_In. exact Hz.
Qed.

(** * The methods, case by case *)

(** [run_binary] stops at the first stage that exits with a non-zero
    status. *)
Lemma run_binary_cases (bp ir tag : string) (w : World) :
  let d := actions_file w in
  run_binary bp ir tag w =
  if negb (nth_exit w 0 =? 0) then
    (Raise (CalledProcessError (nth_exit w 0) (cmd_pass ir)),
     after w 1 0 [Spawn (cmd_pass ir) d (nth_exit w 0);
                  Stdout (OptPassFailed (CalledProcessError (nth_exit w 0) (cmd_pass ir)))])
  else if negb (nth_exit w 1 =? 0) then
    (Raise (CalledProcessError (nth_exit w 1) cmd_vec),
     after w 2 0 [Spawn (cmd_pass ir) d 0; Spawn cmd_vec d (nth_exit w 1)])
  else if negb (nth_exit w 2 =? 0) then
    (Raise (CalledProcessError (nth_exit w 2) (cmd_clang bp)),
     after w 3 0 [Spawn (cmd_pass ir) d 0; Spawn cmd_vec d 0;
                  Spawn (cmd_clang bp) d (nth_exit w 2)])
  else if negb (nth_exit w 3 =? 0) then
    (Raise (CalledProcessError (nth_exit w 3) (cmd_run bp)),
     after w 4 1 [Spawn (cmd_pass ir) d 0; Spawn cmd_vec d 0;
                  Spawn (cmd_clang bp) d 0; Spawn (cmd_run bp) d (nth_exit w 3)])
  else
    (Ok (elapsed_of w),
     after w 4 2 [Spawn (cmd_pass ir) d 0; Spawn cmd_vec d 0;
                  Spawn (cmd_clang bp) d 0; Spawn (cmd_run bp) d 0;
                  Stdout (Runtime tag (elapsed_of w))]).
Proof.
  unfold run_binary, bind, try_except, check_call, time_time, print, ret,
    raise, log, after, nth_exit, elapsed_of.
  cbn -[cmd_pass cmd_vec cmd_clang cmd_run Float.sub Z.eqb].
  destruct (exit_status w (spawned w) =? 0) eqn:E0;
    cbn -[cmd_pass cmd_vec cmd_clang cmd_run Float.sub Z.eqb].
  2: { rewrite <- !app_assoc. reflexivity. }
  apply Z.eqb_eq in E0. rewrite E0.
  destruct (exit_status w (S (spawned w)) =? 0) eqn:E1;
    cbn -[cmd_pass cmd_vec cmd_clang cmd_run Float.sub Z.eqb].
  2: { rewrite <- !app_assoc. reflexivity. }
  apply Z.eqb_eq in E1. rewrite E1.
  destruct (exit_status w (S (S (spawned w))) =? 0) eqn:E2;
    cbn -[cmd_pass cmd_vec cmd_clang cmd_run Float.sub Z.eqb].
  2: { rewrite <- !app_assoc. reflexivity. }
  apply Z.eqb_eq in E2. rewrite E2.
  destruct (exit_status w (S (S (S (spawned w)))) =? 0) eqn:E3;
    cbn -[cmd_pass cmd_vec cmd_clang cmd_run Float.sub Z.eqb].
  2: { rewrite <- !app_assoc. reflexivity. }
  apply Z.eqb_eq in E3. rewrite E3.
  rewrite <- !app_assoc. reflexivity.
Qed.

(** [step] in single-loop mode. *)
Lemma step_single_spec (self : Env true) (w : World) (action : Z) :
  step (self, w) action =
  step_outcome self w (act_map_of self action)
    (set_current_loop_idx (current_loop_idx self + 1) self)
    (np_zeros (obs_dim self)).
Proof.
  unfold step, step_single, step_outcome, act_map_of, bind, get_self, pure,
    lift, modify_self, ret, written. simpl.
  destruct (getitem (loops self) (current_loop_idx self)) as [l|e]; [|reflexivity].
  destruct (item "loop_id" (loop_id l)) as [id|e]; [|reflexivity].
  destruct (run_binary _ _ _ _) as [[t|e] w']; [|reflexivity].
  simpl. destruct (np_zeros (obs_dim self)); reflexivity.
Qed.

(** [step] in whole-program mode. *)
Lemma step_multi_spec (self : Env false) (w : World) (action : list Z) :
  step (self, w) action =
  step_outcome self w (act_map_of self action) self
    (np_zeros (n_loops self * obs_dim self)).
Proof.
  unfold step, step_multi, step_outcome, act_map_of, bind, get_self, pure,
    lift, modify_self, ret, written. simpl.
  destruct (enumerate_actions _ _ _ _) as [m|e]; [|reflexivity].
  destruct (run_binary _ _ _ _) as [[t|e] w']; [|reflexivity].
  simpl. destruct (np_zeros _); reflexivity.
Qed.

(** What [run_binary] returns: the measured time when the four stages exit
    with 0, and otherwise the [CalledProcessError] of the first stage that
    does not, after which no further process is started. *)
Lemma run_binary_inv (bp ir tag : string) (w : World) :
  (toolchain_succeeds w /\
   run_binary bp ir tag w =
   (Ok (elapsed_of w),
    after w 4 2 [Spawn (cmd_pass ir) (actions_file w) 0;
                 Spawn cmd_vec (actions_file w) 0;
                 Spawn (cmd_clang bp) (actions_file w) 0;
                 Spawn (cmd_run bp) (actions_file w) 0;
                 Stdout (Runtime tag (elapsed_of w))])) \/
  (exists k : nat,
     (k < 4)%nat /\
     (forall i : nat, (i < k)%nat -> nth_exit w i = 0) /\
     nth_exit w k <> 0 /\
     fst (run_binary bp ir tag w) =
       Raise (CalledProcessError (nth_exit w k) (stage_cmd bp ir k)) /\
     spawned (snd (run_binary bp ir tag w)) = (S k + spawned w)%nat /\
     actions_file (snd (run_binary bp ir tag w)) = actions_file w).
Proof.
  rewrite run_binary_cases. cbv zeta.
  destruct (nth_exit w 0 =? 0) eqn:E0; simpl negb; cbv iota.
  2: { right. exists 0%nat. apply Z.eqb_neq in E0.
       repeat split; try assumption; try lia. }
  destruct (nth_exit w 1 =? 0) eqn:E1; simpl negb; cbv iota.
  2: { right. exists 1%nat. apply Z.eqb_neq in E1. apply Z.eqb_eq in E0.
       repeat split; try assumption; try lia.
       intros i Hi. replace i with 0%nat by lia. assumption. }
  destruct (nth_exit w 2 =? 0) eqn:E2; simpl negb; cbv iota.
  2: { right. exists 2%nat. apply Z.eqb_neq in E2.
       apply Z.eqb_eq in E0, E1.
       repeat split; try assumption; try lia.
       intros i Hi. destruct i as [|[|i]]; try assumption; lia. }
  destruct (nth_exit w 3 =? 0) eqn:E3; simpl negb; cbv iota.
  2: { right. exists 3%nat. apply Z.eqb_neq in E3.
       apply Z.eqb_eq in E0, E1, E2.
       repeat split; try assumption; try lia.
       intros i Hi. destruct i as [|[|[|i]]]; try assumption; lia. }
  left. apply Z.eqb_eq in E0, E1, E2, E3. split; [|reflexivity].
  intros i Hi. destruct i as [|[|[|[|i]]]]; try assumption; lia.
Qed.

(** * The claims *)

(** C2. [action_to_metadata] is a total function of the integers: 0 gives
    [{"disable": True}], 1, 2 and 3 give the widths 2, 4 and 8, and every
    integer outside 0..3 gives [{"disable": True}] again, not an error. *)
Theorem action_to_metadata_total (action : Z) :
  action_to_metadata 0 = Disable true /\
  action_to_metadata 1 = Width 2 /\
  action_to_metadata 2 = Width 4 /\
  action_to_metadata 3 = Width 8 /\
  (action < 0 \/ 3 < action -> action_to_metadata action = Disable true).
Proof.
  repeat split. intros Hout. unfold action_to_metadata.
  destruct (Z.eqb_spec action 0); [lia|].
  destruct (Z.eqb_spec action 1); [lia|].
  destruct (Z.eqb_spec action 2); [lia|].
  destruct (Z.eqb_spec action 3); [lia|].
  reflexivity.
Qed.

Lemma action_to_metadata_total_witness :
  action_to_metadata 7 = Disable true /\ action_to_metadata (-2) = Disable true.
Proof.
  split.
  - apply (action_to_metadata_total 7). right. reflexivity.
  - apply (action_to_metadata_total (-2)). left. reflexivity.
Defined.

(** [step] in either mode. *)
Lemma step_spec {mode} (self : Env mode) (w : World) (action : action_t mode) :
  exists (self' : Env mode) (zeros : result obs),
    current_loop_idx self' =
      (if mode then current_loop_idx self + 1 else current_loop_idx self) /\
    loops self' = loops self /\ n_loops self' = n_loops self /\
    obs_dim self' = obs_dim self /\
    zeros = np_zeros (if mode then obs_dim self else n_loops self * obs_dim self) /\
    step (self, w) action = step_outcome self w (act_map_of self action) self' zeros.
Proof.
  destruct mode.
  - exists (set_current_loop_idx (current_loop_idx self + 1) self),
      (np_zeros (obs_dim self)).
    rewrite step_single_spec. repeat split; reflexivity.
  - exists self, (np_zeros (n_loops self * obs_dim self)).
    rewrite step_multi_spec. repeat split; reflexivity.
Qed.

(** A call of [step] that returns has run the toolchain to its end. *)
Lemma step_Ok_inv {mode} (self : Env mode) (w : World) (action : action_t mode)
    (res : obs * float * bool * info) (st' : St mode) :
  step (self, w) action = (Ok res, st') ->
  exists (m : gmap string metadata) (z : obs),
    act_map_of self action = Ok m /\
    toolchain_succeeds w /\
    res = (z, Float.sub (baseline_time self) (elapsed_of w), true,
           {| runtime := elapsed_of w |}) /\
    current_loop_idx (fst st') =
      (if mode then current_loop_idx self + 1 else current_loop_idx self).
Proof.
  destruct (step_spec self w action) as (self' & zeros & Hidx & _ & _ & _ & _ & ->).
  unfold step_outcome.
  destruct (act_map_of self action) as [m|e]; [|discriminate].
  destruct (run_binary_inv (binary_path self) (ir_path self) "trial" (written m w))
    as [[Hok ->]|(k & _ & _ & _ & Hr & _)].
  - destruct zeros as [z|e]; [|discriminate].
    intros [= <- <-]. exists m, z. repeat split; assumption.
  - destruct (run_binary _ _ _ _) as [[t|e] w']; simpl in Hr;
      discriminate.
Qed.

(** C3. In both modes the reward a step returns is [baseline_time] minus
    the time measured in that trial, with nothing else applied to it: it is
    strictly positive when the measured time is below the baseline, strictly
    negative when it is above, and zero when they are equal. *)
Theorem step_reward {mode} (self : Env mode) (w : World) (action : action_t mode)
    (o : obs) (reward : float) (done : bool) (i : info) (st' : St mode) :
  step (self, w) action = (Ok (o, reward, done, i), st') ->
  runtime i = elapsed_of w /\
  reward = Float.sub (baseline_time self) (runtime i) /\
  (Float.finite (baseline_time self) = true ->
   Float.finite (runtime i) = true ->
   (Float.ltb (runtime i) (baseline_time self) = true ->
    Float.ltb Float.zero reward = true) /\
   (Float.ltb (baseline_time self) (runtime i) = true ->
    Float.ltb reward Float.zero = true) /\
   (Float.eqb (runtime i) (baseline_time self) = true ->
    Float.eqb reward Float.zero = true)).
Proof.
  intros Hstep.
  apply step_Ok_inv in Hstep as (m & z & _ & _ & [= -> -> -> ->] & _).
  simpl runtime. repeat split; try apply Float_sub_sign; assumption.
Qed.

Lemma step_reward_witness :
  exists (o : obs) (reward : float) (done : bool) (i : info) (st' : St true),
    step (env_single 0, calm Missing None) 1 = (Ok (o, reward, done, i), st') /\
    runtime i = Float.of_Z 1 /\
    Float.ltb Float.zero reward = true.
Proof.
  eexists _, _, _, _, _.
  assert (Hstep : step (env_single 0, calm Missing None) 1 =
                  (Ok (repeat_list Float32.zero 6, Float.of_Z 1, true,
                       {| runtime := Float.of_Z 1 |}),
                   snd (step (env_single 0, calm Missing None) 1)))
    by (vm_compute; reflexivity).
  split; [exact Hstep|].
  destruct (step_reward _ _ _ _ _ _ _ _ Hstep) as (Hrun & Hrew & Hsign).
  split; [reflexivity|].
  apply Hsign; reflexivity.
Defined.

(** C4. Every call of [step] that returns, in single-loop mode and in
    whole-program mode, returns [done = True]; and [step] does return, with
    [done = True], whenever the act map can be built and the four stages of
    the toolchain exit with 0. *)
Theorem step_done {mode} (self : Env mode) (w : World) (action : action_t mode) :
  (forall (o : obs) (reward : float) (done : bool) (i : info) (st' : St mode),
     step (self, w) action = (Ok (o, reward, done, i), st') -> done = true) /\
  (wf_env self -> is_Ok (act_map_of self action) = true ->
   toolchain_succeeds w ->
   exists (o : obs) (reward : float) (i : info) (st' : St mode),
     step (self, w) action = (Ok (o, reward, true, i), st')).
Proof.
  split.
  - intros o reward done i st' Hstep.
    apply step_Ok_inv in Hstep as (m & z & _ & _ & [= _ _ -> _] & _).
    reflexivity.
  - intros [Hn Hd] Hmap Hok.
    destruct (step_spec self w action) as (self' & zeros & _ & _ & _ & _ & Hz & ->).
    unfold step_outcome.
    destruct (act_map_of self action) as [m|e]; [|discriminate].
    destruct (run_binary_inv (binary_path self) (ir_path self) "trial" (written m w))
      as [[_ ->]|(k & Hk & _ & Hbad & _)].
    + assert (Hzeros : exists z, zeros = Ok z).
      { rewrite Hz. unfold np_zeros. rewrite Hn, Hd.
        destruct mode.
        - eexists. reflexivity.
        - destruct (Z.ltb_spec (len (loops self) * 6) 0) as [Hneg|_].
          + unfold len in Hneg. lia.
          + eexists. reflexivity. }
      destruct Hzeros as [z ->]. eexists _, _, _, _. reflexivity.
    + exfalso. apply Hbad. apply (Hok k Hk).
Qed.

Lemma step_done_witness :
  (exists (o : obs) (reward : float) (i : info) (st' : St true),
     step (env_single 1, calm Missing None) 3 = (Ok (o, reward, true, i), st')) /\
  (exists (o : obs) (reward : float) (i : info) (st' : St false),
     step (env_multi, calm Missing None) [0; 2; 5] = (Ok (o, reward, true, i), st')).
Proof.
  split.
  - apply (step_done (env_single 1) (calm Missing None) 3).
    + split; reflexivity.
    + reflexivity.
    + intros i Hi. do 4 (destruct i as [|i]; [reflexivity|]). lia.
  - apply (step_done env_multi (calm Missing None) [0; 2; 5]).
    + split; reflexivity.
    + reflexivity.
    + intros i Hi. do 4 (destruct i as [|i]; [reflexivity|]). lia.
Defined.

(** ** Indexing and the cursor *)

Lemma getitem_out_of_range {A} (l : list A) (i : Z) :
  len l <= i -> getitem l i = Raise IndexError.
Proof.
  unfold getitem, len. intros Hi.
  destruct (Z.ltb_spec i 0) as [Hneg|_]; [lia|].
  destruct (Z.ltb_spec i 0) as [Hneg|_]; [lia|].
  rewrite lookup_ge_None_2; [reflexivity|lia].
Qed.

Lemma getitem_Ok_lt {A} (l : list A) (i : Z) (x : A) :
  0 <= i -> getitem l i = Ok x -> i < len l.
Proof.
  unfold getitem, len. intros Hi.
  destruct (Z.ltb_spec i 0) as [Hneg|_]; [lia|].
  destruct (Z.ltb_spec i 0) as [Hneg|_]; [lia|].
  destruct (l !! Z.to_nat i) as [y|] eqn:E; [|discriminate].
  intros _. apply lookup_lt_Some in E. lia.
Qed.

Lemma act_map_of_single_Ok_lt (self : Env true) (action : Z) :
  0 <= current_loop_idx self ->
  is_Ok (act_map_of self action) = true ->
  current_loop_idx self < len (loops self).
Proof.
  intros Hidx. simpl.
  destruct (getitem (loops self) (current_loop_idx self)) as [l|e] eqn:E;
    [|discriminate].
  intros _. exact (getitem_Ok_lt _ _ _ Hidx E).
Qed.

(** [reset] changes the cursor only, whatever it returns. *)
Lemma reset_state {mode} (self : Env mode) (w : World) :
  snd (reset (self, w)) = (set_current_loop_idx 0 self, w).
Proof.
  unfold reset, bind, modify_self, get_self, pure, single_loop_mode. simpl.
  destruct mode.
  - destruct (getitem (loops self) 0) as [l|e]; reflexivity.
  - destruct (map_result _feature_to_obs (loops self)); reflexivity.
Qed.

(** What [step] leaves in the object: the cursor is moved, by one, only in
    single-loop mode and only when the act map was built and the toolchain
    ran to its end. *)
Lemma step_state {mode} (self : Env mode) (w : World) (action : action_t mode) :
  let self' := fst (snd (step (self, w) action)) in
  loops self' = loops self /\ n_loops self' = n_loops self /\
  obs_dim self' = obs_dim self /\
  (current_loop_idx self' = current_loop_idx self \/
   mode = true /\ is_Ok (act_map_of self action) = true /\
   current_loop_idx self' = current_loop_idx self + 1).
Proof.
  destruct (step_spec self w action)
    as (self1 & zeros & Hidx & Hl & Hn & Hd & _ & ->).
  unfold step_outcome.
  destruct (act_map_of self action) as [m|e]; [|simpl; tauto].
  destruct (run_binary _ _ _ _) as [[t|e] w']; [|simpl; tauto].
  assert (Hself : current_loop_idx self1 = current_loop_idx self \/
                  mode = true /\ is_Ok (Ok m) = true /\
                  current_loop_idx self1 = current_loop_idx self + 1).
  { destruct mode; [right|left]; auto. }
  destruct zeros; simpl; auto.
Qed.

Lemma init_Ok_inv {mode} (ir bp : string) (w : World) (self : Env mode) (w' : World) :
  __init__ ir bp mode w = (Ok self, w') ->
  exists recs : list loop,
    features_file w = Features recs /\ toolchain_succeeds w /\
    loops self = recs /\ wf_env self /\ current_loop_idx self = 0 /\
    baseline_time self = elapsed_of w.
Proof.
  unfold __init__, bind, load_features, ret.
  destruct (features_file w) as [| |recs] eqn:Ef; try discriminate.
  destruct (run_binary_inv bp ir "baseline" w)
    as [[Hok ->]|(k & _ & _ & _ & Hr & _)].
  - intros [= <- <-]. exists recs. repeat split; assumption.
  - destruct (run_binary _ _ _ _) as [[t|e] w1]; simpl in Hr; discriminate.
Qed.

(** The invariant of the reachable states. *)
Lemma reachable_inv {mode} (self : Env mode) :
  reachable self ->
  wf_env self /\
  0 <= current_loop_idx self /\
  (mode = true -> current_loop_idx self <= n_loops self).
Proof.
  induction 1 as [ir bp w self w' Hinit
                 |self w r self' w' Hreach IH Hreset
                 |self w action r self' w' Hreach IH Hstep].
  - apply init_Ok_inv in Hinit as (recs & _ & _ & <- & Hwf & Hidx & _).
    split; [assumption|]. rewrite Hidx. destruct Hwf as [-> _].
    unfold len. lia.
  - pose proof (reset_state self w) as Hs. rewrite Hreset in Hs.
    simpl in Hs. injection Hs as -> ->.
    destruct IH as ([Hn Hd] & _ & _). unfold wf_env. simpl.
    repeat split; try assumption; try lia. intros _. rewrite Hn. unfold len. lia.
  - pose proof (step_state self w action) as Hs. rewrite Hstep in Hs.
    simpl in Hs. destruct Hs as (Hl & Hn & Hd & Hidx).
    destruct IH as ([Hwn Hwd] & Hlo & Hhi). unfold wf_env.
    rewrite Hl, Hn, Hd.
    destruct Hidx as [->|(-> & Hmap & ->)].
    + repeat split; assumption.
    + repeat split; try assumption; try lia. intros _.
      pose proof (act_map_of_single_Ok_lt self action Hlo Hmap). lia.
Qed.

(** C6. [reset] always sets the cursor to 0; in single-loop mode a step that
    returns moves it by exactly 1 and no step moves it back; and in every
    state reachable from the constructor by calls of [reset] and [step] the
    cursor is between 0 and [n_loops]. *)
Theorem cursor_invariant :
  (forall mode (self : Env mode) (w : World),
     current_loop_idx (fst (snd (reset (self, w)))) = 0) /\
  (forall (self : Env true) (w : World) (action : Z)
          (res : obs * float * bool * info) (st' : St true),
     step (self, w) action = (Ok res, st') ->
     current_loop_idx (fst st') = current_loop_idx self + 1) /\
  (forall (self : Env true) (w : World) (action : Z),
     current_loop_idx self <=
     current_loop_idx (fst (snd (step (self, w) action)))) /\
  (forall self : Env true,
     reachable self -> 0 <= current_loop_idx self <= n_loops self).
Proof.
  split; [|split; [|split]].
  - intros mode self w. rewrite reset_state. reflexivity.
  - intros self w action res st' Hstep.
    apply step_Ok_inv in Hstep as (_ & _ & _ & _ & _ & Hidx). exact Hidx.
  - intros self w action.
    destruct (step_state self w action) as (_ & _ & _ & [->|(_ & _ & ->)]); lia.
  - intros self Hreach.
    apply reachable_inv in Hreach as (_ & Hlo & Hhi). split; auto.
Qed.

Lemma cursor_invariant_witness :
  exists self : Env true,
    reachable self /\ current_loop_idx self = 0 + 1 /\
    0 <= current_loop_idx self <= n_loops self.
Proof.
  pose (w0 := calm (Features [L1; L2]) None).
  pose (self0 :=
          {| ir_path := "benchmark.ll"; binary_path := "a.out";
             loops := [L1; L2]; n_loops := 2; obs_dim := 6;
             action_space := Discrete 4;
             observation_space := Box (-1000000000) 1000000000 [6];
             baseline_time := Float.of_Z 1; current_loop_idx := 0 |} : Env true).
  assert (Hinit : __init__ "benchmark.ll" "a.out" true w0 =
                  (Ok self0, snd (__init__ "benchmark.ll" "a.out" true w0)))
    by (vm_compute; reflexivity).
  assert (Hstep : step (self0, w0) 2 =
                  (Ok (repeat_list Float32.zero 6, Float.of_Z 0, true,
                       {| runtime := Float.of_Z 1 |}),
                   snd (step (self0, w0) 2)))
    by (vm_compute; reflexivity).
  assert (Hreach : reachable (fst (snd (step (self0, w0) 2)))).
  { apply (reach_step self0 w0 2 (fst (step (self0, w0) 2)) _
             (snd (snd (step (self0, w0) 2)))).
    - exact (reach_init _ _ _ _ _ Hinit).
    - destruct (step (self0, w0) 2) as [r [s w]]. reflexivity. }
  destruct cursor_invariant as (_ & Hinc & _ & Hinv).
  exists (fst (snd (step (self0, w0) 2))).
  split; [exact Hreach|]. split.
  - exact (Hinc self0 w0 2 _ _ Hstep).
  - exact (Hinv _ Hreach).
Defined.

(** C10. In single-loop mode a call of [step] with the cursor not below
    [n_loops] (the step after the last loop, or any step when no record was
    loaded) raises [IndexError] and leaves the object and the outside world
    as they were: the cursor is not moved, [loop_actions.json] is not
    written and no stage of the toolchain is started. *)
Theorem step_out_of_range (self : Env true) (w : World) (action : Z) :
  (n_loops self = len (loops self) ->
   n_loops self <= current_loop_idx self ->
   step (self, w) action = (Raise IndexError, (self, w))) /\
  (reachable self -> loops self = [] ->
   step (self, w) action = (Raise IndexError, (self, w))).
Proof.
  assert (Hfail : len (loops self) <= current_loop_idx self ->
                  step (self, w) action = (Raise IndexError, (self, w))).
  { intros Hle. rewrite step_single_spec. unfold step_outcome. simpl.
    rewrite getitem_out_of_range by assumption. reflexivity. }
  split.
  - intros Hn Hle. apply Hfail. lia.
  - intros Hreach Hnil. apply Hfail.
    apply reachable_inv in Hreach as (_ & Hlo & _).
    rewrite Hnil. unfold len. simpl. lia.
Qed.

Lemma step_out_of_range_witness :
  step (env_single 2, calm Missing None) 1 =
    (Raise IndexError, (env_single 2, calm Missing None)) /\
  exists self : Env true,
    loops self = [] /\
    step (self, calm Missing None) 1 =
      (Raise IndexError, (self, calm Missing None)).
Proof.
  split.
  - apply (proj1 (step_out_of_range (env_single 2) (calm Missing None) 1)).
    + reflexivity.
    + simpl. lia.
  - pose (w0 := calm (Features []) None).
    pose (self0 :=
            {| ir_path := "benchmark.ll"; binary_path := "a.out";
               loops := []; n_loops := 0; obs_dim := 6;
               action_space := Discrete 4;
               observation_space := Box (-1000000000) 1000000000 [6];
               baseline_time := Float.of_Z 1; current_loop_idx := 0 |} : Env true).
    assert (Hinit : __init__ "benchmark.ll" "a.out" true w0 =
                    (Ok self0, snd (__init__ "benchmark.ll" "a.out" true w0)))
      by (vm_compute; reflexivity).
    exists self0. split; [reflexivity|].
    apply (proj2 (step_out_of_range self0 (calm Missing None) 1)).
    + exact (reach_init _ _ _ _ _ Hinit).
    + reflexivity.
Defined.

(** ** Observations *)

Lemma float_of_int_in_range (z : Z) :
  in_float_range z = true -> float_of_int z = Ok (Float.of_Z z).
Proof.
  unfold in_float_range, float_of_int.
  destruct (Float.of_Z z); simpl; intros H; try reflexivity; discriminate.
Qed.

(** On a record whose fields [float] accepts, [_feature_to_obs] is the
    six-field encoding. *)
Lemma feature_to_obs_encode (l : loop) :
  loop_in_float_range l = true -> _feature_to_obs l = Ok (encode l).
Proof.
  unfold loop_in_float_range. simpl forallb. intros H.
  repeat (apply andb_prop in H as [?%float_of_int_in_range H]).
  unfold _feature_to_obs, np_array_float32, encode, cast. simpl.
  repeat match goal with E : float_of_int _ = Ok _ |- _ => rewrite E; clear E end.
  reflexivity.
Qed.

Lemma map_result_encode (ls : list loop) :
  Forall (fun l => loop_in_float_range l = true) ls ->
  map_result _feature_to_obs ls = Ok (map encode ls).
Proof.
  induction 1 as [|l ls Hl _ IH]; simpl.
  - reflexivity.
  - rewrite (feature_to_obs_encode l Hl), IH. reflexivity.
Qed.

Lemma length_concat_encode (ls : list loop) :
  length (concat (map encode ls)) = (6 * length ls)%nat.
Proof.
  induction ls as [|l ls IH]; simpl; [reflexivity|]. rewrite IH. lia.
Qed.

(** C5. [reset] returns the six-field encoding [num_blocks, num_loads,
    num_stores, num_arith, num_calls, trip_count_est] of the records, each
    field cast to a float; an absent [trip_count_est] is encoded as -1.0 and
    a present one as its own cast, whatever its size.  In single-loop mode
    the observation is the encoding of the record at the cursor, which
    [reset] sets to 0, and has length 6; in whole-program mode it is the
    concatenation of the encodings of all the records, in the order of the
    file, and has length [6 * n_loops]. *)
Theorem reset_observation {mode} (self : Env mode) (w : World) :
  (forall l : loop,
     (trip_count_est l = None -> encode l !! 5%nat = Some Float32.minus_one) /\
     (forall z : Z, trip_count_est l = Some z -> encode l !! 5%nat = Some (cast z))) /\
  (mode = true ->
   forall l : loop,
     loops self !! 0%nat = Some l -> loop_in_float_range l = true ->
     reset (self, w) = (Ok (encode l), (set_current_loop_idx 0 self, w)) /\
     length (encode l) = 6%nat) /\
  (mode = false ->
   loops self <> [] ->
   Forall (fun l => loop_in_float_range l = true) (loops self) ->
   fst (reset (self, w)) = Ok (concat (map encode (loops self))) /\
   length (concat (map encode (loops self))) = (6 * length (loops self))%nat).
Proof.
  split; [|split].
  - intros l. split.
    + intros Hnone. unfold encode. rewrite Hnone. reflexivity.
    + intros z Hsome. unfold encode. rewrite Hsome. reflexivity.
  - intros -> l Hl Hrange. split; [|reflexivity].
    unfold reset, bind, modify_self, get_self, pure, single_loop_mode. simpl.
    destruct (loops self) as [|l0 ls]; [discriminate|].
    injection Hl as ->. unfold getitem. simpl.
    rewrite (feature_to_obs_encode l Hrange). reflexivity.
  - intros -> Hne Hall. split; [|apply length_concat_encode].
    unfold reset, bind, modify_self, get_self, pure, single_loop_mode. simpl.
    rewrite (map_result_encode _ Hall). simpl.
    destruct (loops self) as [|l ls]; [contradiction|]. reflexivity.
Qed.

Lemma reset_observation_witness :
  reset (env_single 1, calm Missing None) =
    (Ok [cast 3; cast 2; cast 1; cast 7; cast 0; Float32.minus_one],
     (env_single 0, calm Missing None)) /\
  fst (reset (env_multi, calm Missing None)) =
    Ok (encode L1 ++ encode L2 ++ encode L3) /\
  encode L2 !! 5%nat = Some (cast 4294967296).
Proof.
  split; [|split].
  - apply (proj1 (proj2 (reset_observation (env_single 1) (calm Missing None)))
             eq_refl L1); reflexivity.
  - apply (proj2 (proj2 (reset_observation env_multi (calm Missing None)))
             eq_refl).
    + discriminate.
    + repeat constructor.
  - apply (proj1 (reset_observation env_multi (calm Missing None)) L2).
    reflexivity.
Defined.

(** ** The act map of whole-program mode *)

Lemma run_binary_actions_file (bp ir tag : string) (w : World) :
  actions_file (snd (run_binary bp ir tag w)) = actions_file w.
Proof.
  destruct (run_binary_inv bp ir tag w) as [[_ ->]|(k & _ & _ & _ & _ & _ & H)].
  - reflexivity.
  - exact H.
Qed.

Lemma run_binary_trace (bp ir tag : string) (w : World) :
  exists evs : list event,
    trace (snd (run_binary bp ir tag w)) = trace w ++ evs.
Proof.
  rewrite run_binary_cases. cbv zeta.
  repeat (destruct (negb _)); eexists; reflexivity.
Qed.

Lemma getitem_of_nat {A} (l : list A) (k : nat) (x : A) :
  l !! k = Some x -> getitem l (Z.of_nat k) = Ok x.
Proof.
  intros Hk. unfold getitem.
  destruct (Z.ltb_spec (Z.of_nat k) 0) as [Hneg|_]; [lia|].
  destruct (Z.ltb_spec (Z.of_nat k) 0) as [Hneg|_]; [lia|].
  rewrite Nat2Z.id, Hk. reflexivity.
Qed.

(** The loop over [enumerate(action)], from index [k] on, when the loops
    from [k] on have the distinct ids [drop k ids], none of which is in the
    act map yet: one entry is added for each of them. *)
Lemma enumerate_actions_spec (ls : list loop) (ids : list string) :
  map loop_id ls = map Some ids ->
  forall (action : list Z) (k : nat) (acc : gmap string metadata),
    (k + length action = length ids)%nat ->
    NoDup (drop k ids) ->
    (forall id : string, id ∈ drop k ids -> acc !! id = None) ->
    exists m : gmap string metadata,
      enumerate_actions ls (Z.of_nat k) action acc = Ok m /\
      size m = (size acc + length action)%nat /\
      dom m = dom acc ∪ list_to_set (drop k ids) /\
      (forall (j : nat) (id : string) (a : Z),
         drop k ids !! j = Some id -> action !! j = Some a ->
         m !! id = Some (action_to_metadata a)) /\
      (forall id : string, id ∉ drop k ids -> m !! id = acc !! id).
Proof.
  intros Hids action.
  induction action as [|a action IH]; intros k acc Hlen Hnd Hfresh.
  - simpl in Hlen. rewrite drop_ge by lia. exists acc. simpl.
    repeat split; try (intros; done); try lia.
    symmetry. apply union_empty_r_L.
  - simpl in Hlen.
    destruct (lookup_lt_is_Some_2 ids k ltac:(lia)) as [id Hid].
    assert (Hl : exists l, ls !! k = Some l /\ loop_id l = Some id).
    { assert (H : map loop_id ls !! k = Some (Some id))
        by (rewrite Hids; change (map Some ids) with (Some <$> ids);
            rewrite list_lookup_fmap, Hid; reflexivity).
      change (map loop_id ls) with (loop_id <$> ls) in H.
      rewrite list_lookup_fmap in H.
      destruct (ls !! k) as [l|]; [|discriminate].
      exists l. split; [reflexivity|]. simpl in H. congruence. }
    destruct Hl as (l & Hlk & Hlid).
    rewrite (drop_S _ _ _ Hid) in Hnd, Hfresh |- *.
    apply NoDup_cons in Hnd as [Hnotin Hnd].
    simpl. rewrite (getitem_of_nat _ _ _ Hlk), Hlid. simpl.
    replace (Z.of_nat k + 1) with (Z.of_nat (S k)) by lia.
    destruct (IH (S k) (<[id := action_to_metadata a]> acc)) as
      (m & Hm & Hsize & Hdom & Hin & Hout).
    + lia.
    + assumption.
    + intros id' Hid'. rewrite lookup_insert_ne by (intros ->; contradiction).
      apply Hfresh. right. assumption.
    + exists m. split; [assumption|]. split; [|split; [|split]].
      * rewrite Hsize, map_size_insert_None by (apply Hfresh; left).
        lia.
      * rewrite Hdom, dom_insert_L.
        rewrite (comm_L (∪) {[id]}), <- (assoc_L (∪)). reflexivity.
      * intros [|j] id' a' Hj Ha; simpl in Hj, Ha.
        -- injection Hj as <-. injection Ha as <-.
           rewrite (Hout id Hnotin). apply lookup_insert_eq.
        -- exact (Hin j id' a' Hj Ha).
      * intros id' Hid'. apply not_elem_of_cons in Hid' as [Hne Hid'].
        rewrite (Hout id' Hid'). apply lookup_insert_ne. congruence.
Qed.

(** C9. In whole-program mode, when the [n_loops] records carry distinct
    loop ids and the action vector has [n_loops] entries, the act map that
    [step] writes to [loop_actions.json] has exactly [n_loops] entries: its
    keys are the loop ids, each one once, and the entry of a loop is the
    directive of the action at its position. *)
Theorem step_multi_directive_map (self : Env false) (w : World)
    (action : list Z) (ids : list string) :
  map loop_id (loops self) = map Some ids ->
  NoDup ids ->
  length action = length (loops self) ->
  exists m : gmap string metadata,
    actions_file (snd (snd (step (self, w) action))) = Some m /\
    Wrote m ∈ trace (snd (snd (step (self, w) action))) /\
    size m = length (loops self) /\
    dom m = list_to_set ids /\
    (forall (j : nat) (id : string) (a : Z),
       ids !! j = Some id -> action !! j = Some a ->
       m !! id = Some (action_to_metadata a)).
Proof.
  intros Hids Hnd Hlen.
  assert (Hlenids : length (loops self) = length ids).
  { rewrite <- (length_map loop_id), Hids, length_map. reflexivity. }
  destruct (enumerate_actions_spec (loops self) ids Hids action 0 ∅)
    as (m & Hm & Hsize & Hdom & Hin & _).
  - simpl. lia.
  - assumption.
  - intros id _. apply lookup_empty.
  - exists m. rewrite step_multi_spec. unfold step_outcome.
    change (act_map_of self action)
      with (enumerate_actions (loops self) (Z.of_nat 0) action ∅).
    rewrite Hm.
    pose proof (run_binary_actions_file (binary_path self) (ir_path self)
                  "trial" (written m w)) as Hfile.
    assert (Htrace : Wrote m ∈ trace (snd (run_binary (binary_path self)
                       (ir_path self) "trial" (written m w)))).
    { destruct (run_binary_trace (binary_path self) (ir_path self) "trial"
                  (written m w)) as [evs ->].
      apply elem_of_app. left. apply elem_of_app. right.
      apply list_elem_of_singleton. reflexivity. }
    destruct (run_binary _ _ _ _) as [[t|e] w']; simpl in Hfile, Htrace.
    + split; [destruct (np_zeros _); exact Hfile|].
      split; [destruct (np_zeros _); exact Htrace|].
      rewrite Hsize, Hdom, map_size_empty, dom_empty_L, (left_id_L ∅ (∪)).
      repeat split; [lia|exact Hin].
    + split; [exact Hfile|]. split; [exact Htrace|].
      rewrite Hsize, Hdom, map_size_empty, dom_empty_L, (left_id_L ∅ (∪)).
      repeat split; [lia|exact Hin].
Qed.

Lemma step_multi_directive_map_witness :
  exists m : gmap string metadata,
    actions_file (snd (snd (step (env_multi, calm Missing None) [0; 2; 5]))) = Some m /\
    size m = 3%nat /\
    m !! "L1" = Some (Disable true) /\
    m !! "L2" = Some (Width 4) /\
    m !! "L3" = Some (Disable true).
Proof.
  destruct (step_multi_directive_map env_multi (calm Missing None) [0; 2; 5]
              ["L1"; "L2"; "L3"]) as (m & Hfile & _ & Hsize & _ & Hin).
  - reflexivity.
  - apply (bool_decide_unpack _). vm_compute. exact I.
  - reflexivity.
  - exists m. split; [exact Hfile|]. split; [exact Hsize|].
    split; [|split].
    + exact (Hin 0%nat "L1" 0 eq_refl eq_refl).
    + exact (Hin 1%nat "L2" 2 eq_refl eq_refl).
    + exact (Hin 2%nat "L3" 5 eq_refl eq_refl).
Defined.

(** ** Construction *)

(** The constructor, when the feature file is read and the four stages
    exit with 0. *)
Lemma init_succeeds (ir bp : string) (mode : bool) (w : World) (recs : list loop) :
  features_file w = Features recs ->
  toolchain_succeeds w ->
  exists self : Env mode,
    __init__ ir bp mode w =
      (Ok self,
       after w 4 2 [Spawn (cmd_pass ir) (actions_file w) 0;
                    Spawn cmd_vec (actions_file w) 0;
                    Spawn (cmd_clang bp) (actions_file w) 0;
                    Spawn (cmd_run bp) (actions_file w) 0;
                    Stdout (Runtime "baseline" (elapsed_of w))]) /\
    baseline_time self = elapsed_of w /\
    loops self = recs /\ n_loops self = len recs /\
    current_loop_idx self = 0.
Proof.
  intros Hf Hok. unfold __init__, bind, load_features, ret. rewrite Hf.
  destruct (run_binary_inv bp ir "baseline" w)
    as [[_ ->]|(k & Hk & _ & Hbad & _)].
  - eexists. split; [reflexivity|]. repeat split; reflexivity.
  - exfalso. apply Hbad. apply (Hok k Hk).
Qed.

(** C1, as the code has it.  The constructor computes [baseline_time] by
    one run of the four stages of the toolchain, each started once and in
    order, and it does not write or clear [loop_actions.json]: every stage
    finds the file as it was before the construction, so that the run has no
    directive for any loop when there is no such file.  When the run fails,
    the construction fails with the error of the run. *)
Theorem init_baseline (ir bp : string) (mode : bool) (w : World) (recs : list loop) :
  features_file w = Features recs ->
  (toolchain_succeeds w ->
   exists self : Env mode,
     __init__ ir bp mode w =
       (Ok self,
        after w 4 2 [Spawn (cmd_pass ir) (actions_file w) 0;
                     Spawn cmd_vec (actions_file w) 0;
                     Spawn (cmd_clang bp) (actions_file w) 0;
                     Spawn (cmd_run bp) (actions_file w) 0;
                     Stdout (Runtime "baseline" (elapsed_of w))]) /\
     baseline_time self = elapsed_of w /\
     loops self = recs /\ current_loop_idx self = 0) /\
  (forall (e : exn) (w' : World),
     run_binary bp ir "baseline" w = (Raise e, w') ->
     __init__ ir bp mode w = (Raise e, w')) /\
  actions_file (snd (__init__ ir bp mode w)) = actions_file w.
Proof.
  intros Hf. split; [|split].
  - intros Hok.
    destruct (init_succeeds ir bp mode w recs Hf Hok)
      as (self & Hinit & Hbase & Hloops & _ & Hidx).
    exists self. repeat split; assumption.
  - unfold __init__, bind, load_features, ret. rewrite Hf.
    intros e w' ->. reflexivity.
  - unfold __init__, bind, load_features, ret. rewrite Hf.
    pose proof (run_binary_actions_file bp ir "baseline" w) as Hfile.
    destruct (run_binary bp ir "baseline" w) as [[t|e] w']; exact Hfile.
Qed.

Lemma init_baseline_witness :
  exists self : Env true,
    fst (__init__ "benchmark.ll" "a.out" true (calm (Features [L1; L2]) None)) =
      Ok self /\
    baseline_time self = Float.of_Z 1 /\
    trace (snd (__init__ "benchmark.ll" "a.out" true
                  (calm (Features [L1; L2]) None))) =
      [Spawn (cmd_pass "benchmark.ll") None 0; Spawn cmd_vec None 0;
       Spawn (cmd_clang "a.out") None 0; Spawn (cmd_run "a.out") None 0;
       Stdout (Runtime "baseline" (Float.of_Z 1))].
Proof.
  destruct (proj1 (init_baseline "benchmark.ll" "a.out" true
                     (calm (Features [L1; L2]) None) [L1; L2] eq_refl))
    as (self & Hinit & Hbase & _).
  - intros i Hi. do 4 (destruct i as [|i]; [reflexivity|]). lia.
  - exists self. rewrite Hinit. split; [reflexivity|].
    split; [rewrite Hbase|]; reflexivity.
Defined.

(** C1, as stated, fails: a directive file left by an earlier run is what
    the stages of the baseline run find.  Here [loop_actions.json] holds
    [{"L1": {"width": 8}}] before the construction, the construction
    succeeds, and its first stage is started with that file in place. *)
Lemma init_baseline_stale_directives :
  is_Ok (fst (__init__ "benchmark.ll" "a.out" true
                (calm (Features [L1]) (Some {["L1" := Width 8]})))) = true /\
  trace (snd (__init__ "benchmark.ll" "a.out" true
                (calm (Features [L1]) (Some {["L1" := Width 8]})))) !! 0%nat =
    Some (Spawn (cmd_pass "benchmark.ll") (Some {["L1" := Width 8]}) 0) /\
  ({["L1" := Width 8]} : gmap string metadata) !! "L1" = Some (Width 8).
Proof. vm_compute. repeat split; reflexivity. Qed.




(** ** Failures of the toolchain *)

Lemma stage_cmd_length (bp ir : string) (k : nat) :
  (k < 4)%nat ->
  length (stage_cmd bp ir k) =
    match k with O => 7 | 1 => 6 | 2 => 5 | _ => 1 end%nat.
Proof.
  intros Hk. do 4 (destruct k as [|k]; [reflexivity|]). lia.
Qed.

(** C8, as the code has it.  When stage [k] of a run (apply, vectorize,
    compile or the measured program) is the first to exit with a non-zero
    status, [run_binary] raises the [CalledProcessError] of that stage,
    which carries its exit status and its command line; the command lines of
    the four stages differ, so the error tells the stage.  The stage is not
    run again and no later stage is started, and a [step] whose run fails
    returns no reward: it raises that same error. *)
Theorem toolchain_failure (bp ir tag : string) (w : World) (k : nat) :
  (k < 4)%nat ->
  (forall i : nat, (i < k)%nat -> nth_exit w i = 0) ->
  nth_exit w k <> 0 ->
  fst (run_binary bp ir tag w) =
    Raise (CalledProcessError (nth_exit w k) (stage_cmd bp ir k)) /\
  spawned (snd (run_binary bp ir tag w)) = (S k + spawned w)%nat /\
  (forall j : nat, (j < 4)%nat -> j <> k ->
     stage_cmd bp ir j <> stage_cmd bp ir k) /\
  (forall mode (self : Env mode) (action : action_t mode),
     exists e : exn,
       fst (step (self, w) action) = Raise e /\
       (is_Ok (act_map_of self action) = true ->
        e = CalledProcessError (nth_exit w k)
              (stage_cmd (binary_path self) (ir_path self) k))).
Proof.
  intros Hk Hbefore Hbad.
  assert (Hrun : forall bp' ir' tag' w',
            exit_status w' = exit_status w -> spawned w' = spawned w ->
            fst (run_binary bp' ir' tag' w') =
              Raise (CalledProcessError (nth_exit w k) (stage_cmd bp' ir' k)) /\
            spawned (snd (run_binary bp' ir' tag' w')) = (S k + spawned w)%nat).
  { intros bp' ir' tag' w' Hex Hsp.
    assert (Hnth : forall i, nth_exit w' i = nth_exit w i)
      by (intros i; unfold nth_exit; rewrite Hex, Hsp; reflexivity).
    destruct (run_binary_inv bp' ir' tag' w')
      as [[Hok _]|(k' & Hk' & Hbefore' & Hbad' & Hr & Hs & _)].
    - exfalso. apply Hbad. rewrite <- Hnth. apply (Hok k Hk).
    - assert (k' = k) as ->.
      { destruct (Nat.lt_trichotomy k' k) as [Hlt|[Heq|Hgt]].
        - exfalso. apply Hbad'. rewrite Hnth. apply Hbefore. assumption.
        - assumption.
        - exfalso. apply Hbad. rewrite <- Hnth. apply Hbefore'. assumption. }
      rewrite Hr, Hs, Hnth, Hsp. split; reflexivity. }
  split; [apply (Hrun bp ir tag w); reflexivity|].
  split; [apply (Hrun bp ir tag w); reflexivity|].
  split.
  - intros j Hj Hne Heq. apply (f_equal length) in Heq.
    rewrite !stage_cmd_length in Heq by assumption.
    do 4 (destruct j as [|j]; [do 4 (destruct k as [|k]; try lia; try discriminate)|]).
    lia.
  - intros mode self action.
    destruct (step_spec self w action) as (self' & zeros & _ & _ & _ & _ & _ & ->).
    unfold step_outcome.
    destruct (act_map_of self action) as [m|e].
    + destruct (Hrun (binary_path self) (ir_path self) "trial" (written m w)
                  eq_refl eq_refl) as [Hr _].
      destruct (run_binary _ _ _ _) as [[t|e] w']; simpl in Hr; [discriminate|].
      exists e. split; [reflexivity|]. intros _. congruence.
    + exists e. split; [reflexivity|]. discriminate.
Qed.

Lemma toolchain_failure_witness :
  fst (run_binary "a.out" "benchmark.ll" "trial" (world Missing None 2 1)) =
    Raise (CalledProcessError 1 ["clang"; "tmp_vec.ll"; "-O3"; "-o"; "a.out"]) /\
  spawned (snd (run_binary "a.out" "benchmark.ll" "trial"
                  (world Missing None 2 1))) = 3%nat.
Proof.
  destruct (toolchain_failure "a.out" "benchmark.ll" "trial"
              (world Missing None 2 1) 2) as (Hr & Hs & _).
  - lia.
  - intros i Hi. do 2 (destruct i as [|i]; [reflexivity|]). lia.
  - discriminate.
  - split; [exact Hr|exact Hs].
Defined.

(** C8, as stated, fails: the error raised when the measured program exits
    with a non-zero status and the error raised when the vectorize stage
    does are of one and the same class, [CalledProcessError]. *)
Lemma toolchain_failure_one_class :
  fst (run_binary "a.out" "benchmark.ll" "trial" (world Missing None 3 1)) =
    Raise (CalledProcessError 1 ["./a.out"]) /\
  fst (run_binary "a.out" "benchmark.ll" "trial" (world Missing None 1 1)) =
    Raise (CalledProcessError 1
             ["opt"; "-loop-vectorize"; "tmp_opt.ll"; "-S"; "-o"; "tmp_vec.ll"]) /\
  class_of (CalledProcessError 1 ["./a.out"]) =
    class_of (CalledProcessError 1
                ["opt"; "-loop-vectorize"; "tmp_opt.ll"; "-S"; "-o"; "tmp_vec.ll"]).
Proof. vm_compute. repeat split; reflexivity. Qed.

(** * Two scenarios *)

(** Two loops "L1" and "L2": the construction succeeds after one baseline
    run that finds no directive file; [reset] returns the encoding of "L1";
    [step 1] writes [{"L1": {"width": 2}}], returns [done = True] and
    reports as runtime the time measured in that trial. *)
Example scenario_two_loops :
  exists (self : Env true) (w1 : World),
    __init__ "benchmark.ll" "a.out" true (calm (Features [L1; L2]) None) =
      (Ok self, w1) /\
    trace w1 =
      [Spawn (cmd_pass "benchmark.ll") None 0; Spawn cmd_vec None 0;
       Spawn (cmd_clang "a.out") None 0; Spawn (cmd_run "a.out") None 0;
       Stdout (Runtime "baseline" (Float.of_Z 1))] /\
    fst (reset (self, w1)) = Ok (encode L1) /\
    actions_file (snd (snd (step (self, w1) 1))) = Some {["L1" := Width 2]} /\
    exists (o : obs) (reward : float) (i : info),
      fst (step (self, w1) 1) = Ok (o, reward, true, i) /\
      runtime i = elapsed_of w1.
Proof.
  eexists _, _. split; [lazy; reflexivity|].
  split; [vm_compute; reflexivity|].
  split; [vm_compute; reflexivity|].
  split; [vm_compute; reflexivity|].
  eexists _, _, _. split; lazy; reflexivity.
Qed.

(** After the construction over two loops, two steps succeed and move the
    cursor to 2; the third raises [IndexError] and changes nothing. *)
Example scenario_third_step :
  exists (self : Env true) (w1 : World),
    __init__ "benchmark.ll" "a.out" true (calm (Features [L1; L2]) None) =
      (Ok self, w1) /\
    let st1 := snd (step (self, w1) 1) in
    let st2 := snd (step st1 3) in
    is_Ok (fst (step (self, w1) 1)) = true /\
    is_Ok (fst (step st1 3)) = true /\
    current_loop_idx (fst st2) = 2 /\
    step st2 0 = (Raise IndexError, st2).
Proof.
  eexists _, _. split; [lazy; reflexivity|].
  vm_compute. repeat split; reflexivity.
Qed.

(** * Further properties *)

(** ** How [step] fails *)

Lemma getitem_Raise {A} (l : list A) (i : Z) (e : exn) :
  getitem l i = Raise e -> e = IndexError.
Proof.
  unfold getitem. destruct (_ <? 0); [congruence|].
  destruct (l !! _); congruence.
Qed.

Lemma enumerate_actions_Raise (ls : list loop) (action : list Z) (e : exn) :
  forall (idx : Z) (acc : gmap string metadata),
    enumerate_actions ls idx action acc = Raise e ->
    e = IndexError \/ e = KeyError "loop_id".
Proof.
  induction action as [|a action IH]; intros idx acc; simpl; [discriminate|].
  destruct (getitem ls idx) as [l|e'] eqn:E.
  - destruct (loop_id l) as [id|]; simpl.
    + apply IH.
    + intros [= <-]. right. reflexivity.
  - intros [= <-]. left. exact (getitem_Raise _ _ _ E).
Qed.

(** Building the act map raises nothing but [IndexError] and
    [KeyError("loop_id")]. *)
Lemma act_map_of_Raise {mode} (self : Env mode) (action : action_t mode) (e : exn) :
  act_map_of self action = Raise e ->
  e = IndexError \/ e = KeyError "loop_id".
Proof.
  destruct mode; simpl.
  - destruct (getitem (loops self) (current_loop_idx self)) as [l|e'] eqn:E.
    + destruct (loop_id l); simpl; [discriminate|].
      intros [= <-]. right. reflexivity.
    + intros [= <-]. left. exact (getitem_Raise _ _ _ E).
  - apply enumerate_actions_Raise.
Qed.

(** A step whose act map cannot be built changes nothing. *)
Lemma step_build_fails {mode} (self : Env mode) (w : World)
    (action : action_t mode) (e : exn) :
  act_map_of self action = Raise e ->
  step (self, w) action = (Raise e, (self, w)).
Proof.
  intros Hmap.
  destruct (step_spec self w action) as (self' & zeros & _ & _ & _ & _ & _ & ->).
  unfold step_outcome. rewrite Hmap. reflexivity.
Qed.

(** A step whose act map is built leaves it in [loop_actions.json]. *)
Lemma step_written {mode} (self : Env mode) (w : World)
    (action : action_t mode) (m : gmap string metadata) :
  act_map_of self action = Ok m ->
  actions_file (snd (snd (step (self, w) action))) = Some m.
Proof.
  intros Hmap.
  destruct (step_spec self w action) as (self' & zeros & _ & _ & _ & _ & _ & ->).
  unfold step_outcome. rewrite Hmap.
  pose proof (run_binary_actions_file (binary_path self) (ir_path self)
                "trial" (written m w)) as Hfile.
  destruct (run_binary _ _ _ _) as [[t|e] w']; simpl in Hfile.
  - destruct zeros; exact Hfile.
  - exact Hfile.
Qed.

(** X1. In single-loop mode, when the cursor points at a record that has a
    loop id, [step] replaces the contents of [loop_actions.json] by the
    one-entry map from that loop id to the directive of the action, whatever
    the file held before and whether or not the toolchain then succeeds. *)
Theorem step_single_directive_map (self : Env true) (w : World) (action : Z)
    (l : loop) (id : string) :
  0 <= current_loop_idx self ->
  loops self !! Z.to_nat (current_loop_idx self) = Some l ->
  loop_id l = Some id ->
  actions_file (snd (snd (step (self, w) action))) =
    Some {[id := action_to_metadata action]} /\
  size ({[id := action_to_metadata action]} : gmap string metadata) = 1%nat.
Proof.
  intros Hidx Hl Hid. split; [|apply map_size_singleton].
  apply step_written. simpl. unfold getitem.
  destruct (Z.ltb_spec (current_loop_idx self) 0) as [Hneg|_]; [lia|].
  destruct (Z.ltb_spec (current_loop_idx self) 0) as [Hneg|_]; [lia|].
  rewrite Hl, Hid. reflexivity.
Qed.

Lemma step_single_directive_map_witness :
  actions_file (snd (snd (step (env_single 1,
                                calm Missing (Some {["L7" := Width 8]})) 3))) =
    Some {["L2" := Width 8]}.
Proof.
  apply (proj1 (step_single_directive_map (env_single 1)
                  (calm Missing (Some {["L7" := Width 8]})) 3 L2 "L2"
                  ltac:(simpl; lia) eq_refl eq_refl)).
Defined.

Lemma np_zeros_Raise (n : Z) (e : exn) : np_zeros n = Raise e -> e = ValueError.
Proof. unfold np_zeros. destruct (n <? 0); congruence. Qed.

(** X2. What a failed [step] leaves behind, by the error it raises, in both
    modes.  When the error is [IndexError] or [KeyError], it comes from the
    building of the act map and nothing has changed, neither the object nor
    the outside world.  When it is a [CalledProcessError], it is that of the
    first stage of the toolchain that exited with a non-zero status: the
    object is unchanged (the cursor has not moved), but [loop_actions.json]
    already holds the act map of this step. *)
Theorem step_failure_modes {mode} (self : Env mode) (w : World)
    (action : action_t mode) (e : exn) (st' : St mode) :
  step (self, w) action = (Raise e, st') ->
  (class_of e = cIndexError \/ class_of e = cKeyError ->
   act_map_of self action = Raise e /\ st' = (self, w)) /\
  (class_of e = cCalledProcessError ->
   exists (m : gmap string metadata) (k : nat),
     act_map_of self action = Ok m /\ (k < 4)%nat /\
     (forall i : nat, (i < k)%nat -> nth_exit w i = 0) /\
     nth_exit w k <> 0 /\
     e = CalledProcessError (nth_exit w k)
           (stage_cmd (binary_path self) (ir_path self) k) /\
     fst st' = self /\
     actions_file (snd st') = Some m /\
     spawned (snd st') = (S k + spawned w)%nat).
Proof.
  intros Hstep.
  destruct (act_map_of self action) as [m|e'] eqn:Hmap.
  - destruct (step_spec self w action) as (self' & zeros & _ & _ & _ & _ & Hz & Heq).
    rewrite Heq in Hstep. unfold step_outcome in Hstep. rewrite Hmap in Hstep.
    destruct (run_binary_inv (binary_path self) (ir_path self) "trial" (written m w))
      as [[_ Hrun]|(k & Hk & Hbefore & Hbad & Hr & Hs & Hfile)].
    + rewrite Hrun in Hstep.
      destruct zeros as [z|e1]; [discriminate|].
      injection Hstep as <- _. symmetry in Hz.
      apply np_zeros_Raise in Hz as ->.
      split; [intros [H|H]; discriminate H|intros H; discriminate H].
    + destruct (run_binary _ _ _ _) as [[t|e1] w1]; simpl in Hr, Hs, Hfile;
        [discriminate|].
      injection Hr as ->. injection Hstep as <- <-.
      split; [intros [H|H]; discriminate H|]. intros _.
      exists m, k. repeat split; assumption.
  - rewrite (step_build_fails self w action e' Hmap) in Hstep.
    injection Hstep as <- <-. split; [intros _; split; reflexivity|].
    intros Hc.
    destruct (act_map_of_Raise self action e' Hmap) as [->| ->]; discriminate Hc.
Qed.

Lemma step_failure_modes_witness :
  (exists (m : gmap string metadata) (k : nat),
     act_map_of (env_single 0) 1 = Ok m /\ (k < 4)%nat /\
     nth_exit (world Missing None 2 1) k <> 0 /\
     fst (snd (step (env_single 0, world Missing None 2 1) 1)) = env_single 0 /\
     actions_file (snd (snd (step (env_single 0, world Missing None 2 1) 1))) =
       Some m) /\
  snd (step (env_single 2, world Missing None 2 1) 1) =
    (env_single 2, world Missing None 2 1).
Proof.
  split.
  - assert (Hstep : step (env_single 0, world Missing None 2 1) 1 =
                    (Raise (CalledProcessError 1 (cmd_clang "a.out")),
                     snd (step (env_single 0, world Missing None 2 1) 1)))
      by (vm_compute; reflexivity).
    destruct (proj2 (step_failure_modes (env_single 0)
                       (world Missing None 2 1) 1 _ _ Hstep) eq_refl)
      as (m & k & Hmap & Hk & _ & Hbad & _ & Hself & Hfile & _).
    exists m, k. repeat split; assumption.
  - assert (Hstep : step (env_single 2, world Missing None 2 1) 1 =
                    (Raise IndexError,
                     snd (step (env_single 2, world Missing None 2 1) 1)))
      by (vm_compute; reflexivity).
    exact (proj2 (proj1 (step_failure_modes (env_single 2)
                           (world Missing None 2 1) 1 _ _ Hstep)
                    (or_introl eq_refl))).
Defined.

(** ** The act map of whole-program mode, in general *)

Lemma loops_lookup_id (ls : list loop) (ids : list string) (k : nat) (id : string) :
  map loop_id ls = map Some ids -> ids !! k = Some id ->
  exists l : loop, ls !! k = Some l /\ loop_id l = Some id.
Proof.
  intros Hids Hid.
  assert (H : map loop_id ls !! k = Some (Some id))
    by (rewrite Hids; change (map Some ids) with (Some <$> ids);
        rewrite list_lookup_fmap, Hid; reflexivity).
  change (map loop_id ls) with (loop_id <$> ls) in H.
  rewrite list_lookup_fmap in H.
  destruct (ls !! k) as [l|]; [|discriminate].
  exists l. split; [reflexivity|]. simpl in H. congruence.
Qed.

(** The loop over [enumerate(action)] from index [k] on, when the records
    have the loop ids [ids] and the action vector is not longer than the
    records left: the keys added are the ids of the positions the vector
    covers, an id that occurs at several of them keeps the directive of the
    last, and the other keys are as before. *)
Lemma enumerate_actions_general (ls : list loop) (ids : list string) :
  map loop_id ls = map Some ids ->
  forall (action : list Z) (k : nat) (acc : gmap string metadata),
    (k + length action <= length ids)%nat ->
    exists m : gmap string metadata,
      enumerate_actions ls (Z.of_nat k) action acc = Ok m /\
      dom m = dom acc ∪ list_to_set (take (length action) (drop k ids)) /\
      (forall id : string,
         id ∉ take (length action) (drop k ids) -> m !! id = acc !! id) /\
      (forall (j : nat) (id : string) (a : Z),
         drop k ids !! j = Some id -> action !! j = Some a ->
         (forall j' : nat, (j < j')%nat -> (j' < length action)%nat ->
            drop k ids !! j' <> Some id) ->
         m !! id = Some (action_to_metadata a)).
Proof.
  intros Hids action.
  induction action as [|a action IH]; intros k acc Hlen.
  - exists acc. simpl. split; [reflexivity|]. split; [|split].
    + symmetry. apply union_empty_r_L.
    + reflexivity.
    + intros j id a Hj Ha. discriminate.
  - simpl in Hlen.
    destruct (lookup_lt_is_Some_2 ids k ltac:(lia)) as [id0 Hid0].
    destruct (loops_lookup_id ls ids k id0 Hids Hid0) as (l & Hlk & Hlid).
    rewrite (drop_S _ _ _ Hid0).
    simpl. rewrite (getitem_of_nat _ _ _ Hlk), Hlid. simpl.
    replace (Z.of_nat k + 1) with (Z.of_nat (S k)) by lia.
    destruct (IH (S k) (<[id0 := action_to_metadata a]> acc) ltac:(lia))
      as (m & Hm & Hdom & Hout & Hin).
    exists m. split; [assumption|]. split; [|split].
    + rewrite Hdom, dom_insert_L.
      rewrite (comm_L (∪) {[id0]}), <- (assoc_L (∪)). reflexivity.
    + intros id Hid. apply not_elem_of_cons in Hid as [Hne Hid].
      rewrite (Hout id Hid). apply lookup_insert_ne. congruence.
    + intros [|j] id a' Hj Ha Hlast; simpl in Hj, Ha.
      * injection Hj as <-. injection Ha as <-.
        rewrite Hout; [apply lookup_insert_eq|].
        intros Hin'. apply elem_of_take in Hin' as (i & Hi & Hlt).
        apply (Hlast (S i)); [lia|lia|exact Hi].
      * apply (Hin j id a' Hj Ha).
        intros j' Hjj' Hj'. apply (Hlast (S j')); lia.
Qed.

(** What the loop leaves in the act map came from the action vector and
    the records. *)
Lemma enumerate_actions_entries (ls : list loop) (action : list Z) :
  forall (idx : Z) (acc m : gmap string metadata),
    enumerate_actions ls idx action acc = Ok m ->
    forall (id : string) (md : metadata),
      m !! id = Some md ->
      acc !! id = Some md \/
      ((exists a : Z, a ∈ action /\ md = action_to_metadata a) /\
       exists l : loop, l ∈ ls /\ loop_id l = Some id).
Proof.
  induction action as [|a action IH]; intros idx acc m; simpl.
  - intros [= <-] id md Hmd. left. exact Hmd.
  - destruct (getitem ls idx) as [l|e] eqn:El; [|discriminate].
    destruct (loop_id l) as [id0|] eqn:Eid; simpl; [|discriminate].
    intros Hm id md Hmd.
    destruct (IH _ _ _ Hm id md Hmd) as [Hacc|[(a' & Ha' & ->) Hl]].
    + destruct (decide (id0 = id)) as [->|Hne].
      * rewrite lookup_insert_eq in Hacc. injection Hacc as <-.
        right. split.
        -- exists a. split; [left|reflexivity].
        -- exists l. split; [|exact Eid].
           unfold getitem in El. destruct (_ <? 0); [discriminate|].
           destruct (ls !! _) as [l'|] eqn:E; [|discriminate].
           injection El as <-. exact (list_elem_of_lookup_2 _ _ _ E).
      * rewrite lookup_insert_ne in Hacc by assumption. left. exact Hacc.
    + right. split; [|exact Hl]. exists a'. split; [right; exact Ha'|reflexivity].
Qed.

Lemma action_to_metadata_valid (a : Z) : valid_metadata (action_to_metadata a).
Proof.
  unfold valid_metadata, action_to_metadata.
  repeat (destruct (_ =? _); [tauto|]). tauto.
Qed.

(** X3. Whatever the mode and the action, the act map a [step] writes to
    [loop_actions.json] is well formed: every key is the loop id of a loaded
    record and every value is [{"disable": true}] or a width among 2, 4 and
    8. *)
Theorem step_directive_file_well_formed {mode} (self : Env mode) (w : World)
    (action : action_t mode) (m : gmap string metadata) :
  act_map_of self action = Ok m ->
  actions_file (snd (snd (step (self, w) action))) = Some m /\
  forall (id : string) (md : metadata),
    m !! id = Some md ->
    valid_metadata md /\
    exists l : loop, l ∈ loops self /\ loop_id l = Some id.
Proof.
  intros Hmap. split; [exact (step_written self w action m Hmap)|].
  intros id md Hmd. destruct mode; simpl in Hmap.
  - destruct (getitem (loops self) (current_loop_idx self)) as [l|e] eqn:El;
      [|discriminate].
    destruct (loop_id l) as [id0|] eqn:Eid; simpl in Hmap; [|discriminate].
    injection Hmap as <-.
    apply lookup_insert_Some in Hmd as [[<- <-]|[_ Hmd]];
      [|rewrite lookup_empty in Hmd; discriminate].
    split; [apply action_to_metadata_valid|].
    exists l. split; [|exact Eid].
    unfold getitem in El. destruct (_ <? 0); [discriminate|].
    destruct (loops self !! _) as [l'|] eqn:E; [|discriminate].
    injection El as <-. exact (list_elem_of_lookup_2 _ _ _ E).
  - destruct (enumerate_actions_entries _ _ _ _ _ Hmap id md Hmd)
      as [Hacc|[(a & _ & ->) Hl]].
    + rewrite lookup_empty in Hacc. discriminate.
    + split; [apply action_to_metadata_valid|exact Hl].
Qed.

Lemma step_directive_file_well_formed_witness :
  exists m : gmap string metadata,
    actions_file (snd (snd (step (env_multi, calm Missing None) [7; 3; -4]))) =
      Some m /\
    forall (id : string) (md : metadata),
      m !! id = Some md ->
      valid_metadata md /\
      exists l : loop, l ∈ loops env_multi /\ loop_id l = Some id.
Proof.
  eexists.
  apply (step_directive_file_well_formed env_multi (calm Missing None)
           [7; 3; -4]).
  vm_compute. reflexivity.
Defined.

(** X4. In whole-program mode with distinct loop ids, an action vector
    shorter than the records is accepted: the act map written has one entry
    for each of the first [len(action)] loops, with the directive of the
    action at its position, and no entry for the loops after them. *)
Theorem step_multi_short_vector (self : Env false) (w : World)
    (action : list Z) (ids : list string) :
  map loop_id (loops self) = map Some ids ->
  NoDup ids ->
  (length action <= length (loops self))%nat ->
  exists m : gmap string metadata,
    actions_file (snd (snd (step (self, w) action))) = Some m /\
    size m = length action /\
    (forall (j : nat) (id : string) (a : Z),
       ids !! j = Some id -> action !! j = Some a ->
       m !! id = Some (action_to_metadata a)) /\
    (forall (j : nat) (id : string),
       (length action <= j)%nat -> ids !! j = Some id -> m !! id = None).
Proof.
  intros Hids Hnd Hlen.
  assert (Hlenids : length (loops self) = length ids).
  { rewrite <- (length_map loop_id), Hids, length_map. reflexivity. }
  destruct (enumerate_actions_general (loops self) ids Hids action 0 ∅)
    as (m & Hm & Hdom & Hout & Hin); [simpl; lia|].
  rewrite drop_0 in Hdom, Hout, Hin.
  exists m. split; [apply step_written; exact Hm|]. split; [|split].
  - rewrite <- size_dom, Hdom, dom_empty_L, (left_id_L ∅ (∪)).
    rewrite size_list_to_set
      by (apply (sublist_NoDup _ ids); [assumption|apply sublist_take]).
    apply length_take_le. lia.
  - intros j id a Hj Ha. apply (Hin j id a Hj Ha).
    intros j' Hjj' _ Hj'. pose proof (NoDup_lookup _ _ _ _ Hnd Hj Hj'). lia.
  - intros j id Hj Hid. rewrite Hout; [apply lookup_empty|].
    intros Hin'. apply elem_of_take in Hin' as (i & Hi & Hlt).
    pose proof (NoDup_lookup _ _ _ _ Hnd Hi Hid). lia.
Qed.

Lemma step_multi_short_vector_witness :
  exists m : gmap string metadata,
    actions_file (snd (snd (step (env_multi, calm Missing None) [3; 1]))) =
      Some m /\
    size m = 2%nat /\
    m !! "L1" = Some (Width 8) /\ m !! "L2" = Some (Width 2) /\
    m !! "L3" = None.
Proof.
  destruct (step_multi_short_vector env_multi (calm Missing None) [3; 1]
              ["L1"; "L2"; "L3"]) as (m & Hfile & Hsize & Hin & Hout).
  - reflexivity.
  - apply (bool_decide_unpack _). vm_compute. exact I.
  - simpl. lia.
  - exists m. split; [exact Hfile|]. split; [exact Hsize|].
    split; [|split].
    + exact (Hin 0%nat "L1" 3 eq_refl eq_refl).
    + exact (Hin 1%nat "L2" 1 eq_refl eq_refl).
    + apply (Hout 2%nat "L3"); [simpl; lia|reflexivity].
Defined.

(** X5. In whole-program mode, when several records carry the same loop
    id, the act map written has one entry per distinct id, not one per
    record, and the entry of an id holds the directive of the last position
    that carries it. *)
Theorem step_multi_duplicate_ids (self : Env false) (w : World)
    (action : list Z) (ids : list string) :
  map loop_id (loops self) = map Some ids ->
  length action = length (loops self) ->
  exists m : gmap string metadata,
    actions_file (snd (snd (step (self, w) action))) = Some m /\
    dom m = list_to_set ids /\
    size m = length (remove_dups ids) /\
    (forall (j : nat) (id : string) (a : Z),
       ids !! j = Some id -> action !! j = Some a ->
       (forall j' : nat, (j < j')%nat -> ids !! j' <> Some id) ->
       m !! id = Some (action_to_metadata a)).
Proof.
  intros Hids Hlen.
  assert (Hlenids : length (loops self) = length ids).
  { rewrite <- (length_map loop_id), Hids, length_map. reflexivity. }
  destruct (enumerate_actions_general (loops self) ids Hids action 0 ∅)
    as (m & Hm & Hdom & _ & Hin); [simpl; lia|].
  rewrite drop_0 in Hdom, Hin.
  rewrite take_ge in Hdom by lia.
  rewrite dom_empty_L, (left_id_L ∅ (∪)) in Hdom.
  exists m. split; [apply step_written; exact Hm|].
  split; [exact Hdom|]. split.
  - rewrite <- size_dom, Hdom.
    rewrite <- (size_list_to_set (C:=gset string) (remove_dups ids))
      by apply NoDup_remove_dups.
    f_equal. apply set_eq. intros id.
    rewrite !elem_of_list_to_set, elem_of_remove_dups. reflexivity.
  - intros j id a Hj Ha Hlast. apply (Hin j id a Hj Ha).
    intros j' Hjj' _. apply Hlast. assumption.
Qed.

Lemma step_multi_duplicate_ids_witness :
  exists m : gmap string metadata,
    actions_file (snd (snd (step (env_over false [L1; L2; L1] 0,
                                  calm Missing None) [1; 2; 3]))) = Some m /\
    size m = 2%nat /\
    m !! "L1" = Some (Width 8).
Proof.
  destruct (step_multi_duplicate_ids (env_over false [L1; L2; L1] 0)
              (calm Missing None) [1; 2; 3] ["L1"; "L2"; "L1"])
    as (m & Hfile & _ & Hsize & Hin).
  - reflexivity.
  - reflexivity.
  - exists m. split; [exact Hfile|]. split; [exact Hsize|].
    apply (Hin 2%nat "L1" 3 eq_refl eq_refl).
    intros j' Hj' Hid. apply lookup_lt_Some in Hid. simpl in Hid. lia.
Defined.

Lemma enumerate_actions_too_long (ls : list loop) (ids : list string) :
  map loop_id ls = map Some ids ->
  forall (action : list Z) (k : nat) (acc : gmap string metadata),
    (k <= length ids)%nat -> (length ids < k + length action)%nat ->
    enumerate_actions ls (Z.of_nat k) action acc = Raise IndexError.
Proof.
  intros Hids.
  assert (Hlen : length ls = length ids).
  { rewrite <- (length_map loop_id), Hids, length_map. reflexivity. }
  induction action as [|a action IH]; intros k acc Hk Hlong; simpl in *; [lia|].
  destruct (decide (k = length ids)) as [->|Hne].
  - rewrite getitem_out_of_range by (unfold len; lia). reflexivity.
  - destruct (lookup_lt_is_Some_2 ids k ltac:(lia)) as [id0 Hid0].
    destruct (loops_lookup_id ls ids k id0 Hids Hid0) as (l & Hlk & Hlid).
    rewrite (getitem_of_nat _ _ _ Hlk), Hlid. simpl.
    replace (Z.of_nat k + 1) with (Z.of_nat (S k)) by lia.
    apply IH; lia.
Qed.

(** X6. In whole-program mode an action vector longer than the records
    makes [step] raise [IndexError]; although the directives of the first
    [n_loops] actions were decoded, nothing is written and no stage is
    started: the object and the outside world are unchanged. *)
Theorem step_multi_long_vector (self : Env false) (w : World)
    (action : list Z) (ids : list string) :
  map loop_id (loops self) = map Some ids ->
  (length (loops self) < length action)%nat ->
  step (self, w) action = (Raise IndexError, (self, w)).
Proof.
  intros Hids Hlong. apply step_build_fails.
  change (act_map_of self action)
    with (enumerate_actions (loops self) (Z.of_nat 0) action ∅).
  apply (enumerate_actions_too_long (loops self) ids Hids); [lia|].
  rewrite <- (length_map Some ids), <- Hids, length_map. simpl. lia.
Qed.

Lemma step_multi_long_vector_witness :
  step (env_multi, calm Missing None) [0; 1; 2; 3] =
    (Raise IndexError, (env_multi, calm Missing None)).
Proof.
  apply (step_multi_long_vector env_multi (calm Missing None) [0; 1; 2; 3]
           ["L1"; "L2"; "L3"]).
  - reflexivity.
  - simpl. lia.
Defined.

Lemma enumerate_actions_missing_id (ls : list loop) (j : nat) (l : loop) :
  ls !! j = Some l -> loop_id l = None ->
  (forall i : nat, (i < j)%nat ->
     exists l' : loop, ls !! i = Some l' /\ loop_id l' <> None) ->
  forall (action : list Z) (k : nat) (acc : gmap string metadata),
    (k <= j)%nat -> (j < k + length action)%nat ->
    enumerate_actions ls (Z.of_nat k) action acc = Raise (KeyError "loop_id").
Proof.
  intros Hl Hnone Hbefore.
  induction action as [|a action IH]; intros k acc Hk Hlen; simpl in *; [lia|].
  destruct (decide (k = j)) as [->|Hne].
  - rewrite (getitem_of_nat _ _ _ Hl), Hnone. reflexivity.
  - destruct (Hbefore k ltac:(lia)) as (l' & Hl' & Hid').
    rewrite (getitem_of_nat _ _ _ Hl').
    destruct (loop_id l') as [id|]; [|contradiction]. simpl.
    replace (Z.of_nat k + 1) with (Z.of_nat (S k)) by lia.
    apply IH; lia.
Qed.

(** X7. A record that lacks the key ["loop_id"] makes [step] raise
    [KeyError("loop_id")] and change nothing: in single-loop mode when the
    cursor points at it, in whole-program mode when it is the first such
    record and the action vector reaches it. *)
Theorem step_missing_loop_id (l : loop) (w : World) :
  loop_id l = None ->
  (forall (self : Env true) (action : Z),
     0 <= current_loop_idx self ->
     loops self !! Z.to_nat (current_loop_idx self) = Some l ->
     step (self, w) action = (Raise (KeyError "loop_id"), (self, w))) /\
  (forall (self : Env false) (action : list Z) (j : nat),
     loops self !! j = Some l -> (j < length action)%nat ->
     (forall i : nat, (i < j)%nat ->
        exists l' : loop, loops self !! i = Some l' /\ loop_id l' <> None) ->
     step (self, w) action = (Raise (KeyError "loop_id"), (self, w))).
Proof.
  intros Hnone. split.
  - intros self action Hidx Hl. apply step_build_fails. simpl.
    rewrite <- (Z2Nat.id (current_loop_idx self)) by assumption.
    rewrite (getitem_of_nat _ _ _ Hl), Hnone. reflexivity.
  - intros self action j Hl Hj Hbefore. apply step_build_fails.
    change (act_map_of self action)
      with (enumerate_actions (loops self) (Z.of_nat 0) action ∅).
    apply (enumerate_actions_missing_id (loops self) j l Hl Hnone Hbefore); lia.
Qed.

Lemma step_missing_loop_id_witness :
  step (env_over true [L1; Lanon] 1, calm Missing None) 2 =
    (Raise (KeyError "loop_id"), (env_over true [L1; Lanon] 1, calm Missing None)) /\
  step (env_over false [L1; Lanon; L3] 0, calm Missing None) [1; 2; 3] =
    (Raise (KeyError "loop_id"),
     (env_over false [L1; Lanon; L3] 0, calm Missing None)).
Proof.
  split.
  - apply (proj1 (step_missing_loop_id Lanon (calm Missing None) eq_refl)).
    + simpl. lia.
    + reflexivity.
  - apply (proj2 (step_missing_loop_id Lanon (calm Missing None) eq_refl)
             (env_over false [L1; Lanon; L3] 0) [1; 2; 3] 1%nat).
    + reflexivity.
    + simpl. lia.
    + intros i Hi. exists L1. destruct i as [|i]; [|lia].
      split; [reflexivity|discriminate].
Defined.

(** ** Composition of the methods *)

Lemma run_binary_features_file (bp ir tag : string) (w : World) :
  features_file (snd (run_binary bp ir tag w)) = features_file w.
Proof.
  rewrite run_binary_cases. cbv zeta.
  repeat (destruct (negb _)); reflexivity.
Qed.

Lemma step_features_file {mode} (self : Env mode) (w : World)
    (action : action_t mode) :
  features_file (snd (snd (step (self, w) action))) = features_file w.
Proof.
  destruct (step_spec self w action) as (self' & zeros & _ & _ & _ & _ & _ & ->).
  unfold step_outcome.
  destruct (act_map_of self action) as [m|e]; [|reflexivity].
  pose proof (run_binary_features_file (binary_path self) (ir_path self)
                "trial" (written m w)) as Hfile.
  destruct (run_binary _ _ _ _) as [[t|e] w']; simpl in Hfile.
  - destruct zeros; exact Hfile.
  - exact Hfile.
Qed.

(** X8. An environment constructed after a [step] calibrates its baseline
    under the directives of that step: the constructor does not touch
    [loop_actions.json], so the four stages of its baseline run all find the
    act map the step wrote. *)
Theorem init_after_step {mode} (self : Env mode) (w : World)
    (action : action_t mode) (m : gmap string metadata)
    (ir bp : string) (mode' : bool) (recs : list loop) :
  act_map_of self action = Ok m ->
  features_file w = Features recs ->
  toolchain_succeeds (snd (snd (step (self, w) action))) ->
  exists self' : Env mode',
    __init__ ir bp mode' (snd (snd (step (self, w) action))) =
      (Ok self',
       after (snd (snd (step (self, w) action))) 4 2
         [Spawn (cmd_pass ir) (Some m) 0; Spawn cmd_vec (Some m) 0;
          Spawn (cmd_clang bp) (Some m) 0; Spawn (cmd_run bp) (Some m) 0;
          Stdout (Runtime "baseline"
                    (elapsed_of (snd (snd (step (self, w) action)))))]) /\
    baseline_time self' = elapsed_of (snd (snd (step (self, w) action))).
Proof.
  intros Hmap Hf Hok.
  pose proof (step_written self w action m Hmap) as Hfile.
  pose proof (step_features_file self w action) as Hfeat. rewrite Hf in Hfeat.
  destruct (init_succeeds ir bp mode' _ recs Hfeat Hok)
    as (self' & Hinit & Hbase & _).
  exists self'. rewrite Hfile in Hinit. split; assumption.
Qed.

Lemma init_after_step_witness :
  exists self' : Env true,
    fst (__init__ "benchmark.ll" "a.out" true
           (snd (snd (step (env_single 0, calm (Features [L1; L2]) None) 3)))) =
      Ok self' /\
    trace (snd (__init__ "benchmark.ll" "a.out" true
                  (snd (snd (step (env_single 0,
                                   calm (Features [L1; L2]) None) 3)))))
      !! 6%nat =
      Some (Spawn (cmd_pass "benchmark.ll") (Some {["L1" := Width 8]}) 0).
Proof.
  destruct (init_after_step (env_single 0) (calm (Features [L1; L2]) None) 3
              {["L1" := Width 8]} "benchmark.ll" "a.out" true [L1; L2])
    as (self' & Hinit & _).
  - reflexivity.
  - reflexivity.
  - intros i Hi. do 4 (destruct i as [|i]; [vm_compute; reflexivity|]). lia.
  - exists self'. rewrite Hinit. split; [reflexivity|].
    vm_compute. reflexivity.
Defined.

(** X9. What [reset] returns depends on the mode and the loaded records
    only: not on the cursor, the baseline or the outside world, so that it is
    the same before and after any [step]; and [reset] does nothing to the
    outside world. *)
Theorem reset_depends_on_loops_only {mode} (self self' : Env mode)
    (w w' : World) :
  (loops self = loops self' ->
   fst (reset (self, w)) = fst (reset (self', w'))) /\
  (forall action : action_t mode,
     fst (reset (snd (step (self, w) action))) = fst (reset (self, w))) /\
  snd (snd (reset (self, w))) = w.
Proof.
  assert (Hdep : forall (s1 s2 : Env mode) (w1 w2 : World),
            loops s1 = loops s2 ->
            fst (reset (s1, w1)) = fst (reset (s2, w2))).
  { intros s1 s2 w1 w2 Hl.
    unfold reset, bind, modify_self, get_self, pure, single_loop_mode. simpl.
    rewrite Hl. destruct mode.
    - destruct (getitem (loops s2) 0); reflexivity.
    - destruct (map_result _feature_to_obs (loops s2)); reflexivity. }
  split; [apply Hdep|]. split.
  - intros action.
    pose proof (step_state self w action) as (Hl & _).
    destruct (step (self, w) action) as [r [s1 w1]]. simpl in Hl.
    apply Hdep. exact Hl.
  - rewrite reset_state. reflexivity.
Qed.

Lemma reset_depends_on_loops_only_witness :
  fst (reset (env_single 1, calm Missing None)) =
  fst (reset (env_single 0, world NotJSON None 2 1)).
Proof.
  apply (proj1 (reset_depends_on_loops_only (env_single 1) (env_single 0)
                  (calm Missing None) (world NotJSON None 2 1))).
  reflexivity.
Defined.

(** X10. In single-loop mode the step that follows a [reset] acts on the
    first record, wherever the cursor was before: it writes the one-entry
    act map of the loop id of [loops[0]]. *)
Theorem step_after_reset (self : Env true) (w w' : World) (action : Z)
    (l0 : loop) (rest : list loop) (id : string) :
  loops self = l0 :: rest ->
  loop_id l0 = Some id ->
  actions_file
    (snd (snd (step (fst (snd (reset (self, w))), w') action))) =
  Some {[id := action_to_metadata action]}.
Proof.
  intros Hl Hid. rewrite reset_state. simpl fst.
  apply step_written. simpl. rewrite Hl. unfold getitem. simpl.
  rewrite Hid. reflexivity.
Qed.

Lemma step_after_reset_witness :
  actions_file
    (snd (snd (step (fst (snd (reset (env_single 1, calm Missing None))),
                     calm Missing None) 2))) =
  Some {["L1" := Width 4]}.
Proof.
  apply (step_after_reset (env_single 1) (calm Missing None)
           (calm Missing None) 2 L1 [L2] "L1"); reflexivity.
Defined.

(** X11. The observation a [step] returns carries no feature: it is the
    array of zeros of the length of the observations of the mode, 6 in
    single-loop mode and [6 * n_loops] in whole-program mode. *)
Theorem step_observation_zeros {mode} (self : Env mode) (w : World)
    (action : action_t mode) (o : obs) (reward : float) (done : bool)
    (i : info) (st' : St mode) :
  wf_env self ->
  step (self, w) action = (Ok (o, reward, done, i), st') ->
  o = replicate (obs_length mode (length (loops self))) Float32.zero.
Proof.
  intros [Hn Hd] Hstep.
  destruct (step_spec self w action) as (self' & zeros & _ & _ & _ & _ & Hz & Heq).
  rewrite Heq in Hstep. unfold step_outcome in Hstep.
  destruct (act_map_of self action) as [m|e]; [|discriminate].
  destruct (run_binary _ _ _ _) as [[t|e] w1]; [|discriminate].
  destruct zeros as [z|e]; [|discriminate].
  injection Hstep as <- _ _ _ _.
  rewrite Hn, Hd in Hz. unfold np_zeros, repeat_list in Hz.
  destruct mode; simpl in Hz.
  - injection Hz as ->. reflexivity.
  - destruct (Z.ltb_spec (len (loops self) * 6) 0) as [Hneg|_];
      [discriminate|].
    injection Hz as ->. unfold obs_length, len. f_equal. lia.
Qed.

Lemma step_observation_zeros_witness :
  exists (o : obs) (reward : float) (done : bool) (i : info) (st' : St false),
    step (env_multi, calm Missing None) [1; 2; 3] = (Ok (o, reward, done, i), st') /\
    o = replicate 18 Float32.zero.
Proof.
  eexists _, _, _, _, _.
  assert (Hstep : step (env_multi, calm Missing None) [1; 2; 3] =
                  (Ok (repeat_list Float32.zero 18, Float.of_Z 1, true,
                       {| runtime := Float.of_Z 1 |}),
                   snd (step (env_multi, calm Missing None) [1; 2; 3])))
    by (vm_compute; reflexivity).
  split; [exact Hstep|].
  exact (step_observation_zeros env_multi _ _ _ _ _ _ _
           (conj eq_refl eq_refl) Hstep).
Defined.

(** X12. [step] and [reset] assign no field of the object but the cursor:
    the records, [n_loops], the paths, the spaces and [baseline_time] are
    after any call, failed or not, what they were before. *)
Theorem methods_change_cursor_only {mode} (self : Env mode) (w : World)
    (action : action_t mode) :
  fst (snd (step (self, w) action)) =
    set_current_loop_idx
      (current_loop_idx (fst (snd (step (self, w) action)))) self /\
  fst (snd (reset (self, w))) = set_current_loop_idx 0 self /\
  baseline_time (fst (snd (step (self, w) action))) = baseline_time self /\
  baseline_time (fst (snd (reset (self, w)))) = baseline_time self.
Proof.
  assert (Heta : self = set_current_loop_idx (current_loop_idx self) self)
    by (destruct self; reflexivity).
  assert (Hstep : fst (snd (step (self, w) action)) =
                  set_current_loop_idx
                    (current_loop_idx (fst (snd (step (self, w) action)))) self).
  { destruct mode.
    - rewrite step_single_spec. unfold step_outcome.
      destruct (act_map_of self action); [|exact Heta].
      destruct (run_binary _ _ _ _) as [[t|e] w1]; [|exact Heta].
      destruct (np_zeros _); reflexivity.
    - rewrite step_multi_spec. unfold step_outcome.
      destruct (act_map_of self action); [|exact Heta].
      destruct (run_binary _ _ _ _) as [[t|e] w1]; [|exact Heta].
      destruct (np_zeros _); exact Heta. }
  split; [exact Hstep|]. split; [rewrite reset_state; reflexivity|].
  split; [rewrite Hstep|rewrite reset_state]; reflexivity.
Qed.

(** ** What a failing run prints and measures *)

(** X13. When a run of the toolchain fails, the line with the runtime is not
    printed; the line "opt pass failed" is printed when it is the first
    stage that failed and in no other case; and the clock is read once when
    the measured program failed and not at all when an earlier stage did. *)
Theorem run_binary_failure_effects (bp ir tag : string) (w : World) (k : nat) :
  (k < 4)%nat ->
  (forall i : nat, (i < k)%nat -> nth_exit w i = 0) ->
  nth_exit w k <> 0 ->
  clock_reads (snd (run_binary bp ir tag w)) =
    ((if Nat.eqb k 3 then 1 else 0) + clock_reads w)%nat /\
  exists evs : list event,
    trace (snd (run_binary bp ir tag w)) = trace w ++ evs /\
    (forall (tag' : string) (t : float), Stdout (Runtime tag' t) ∉ evs) /\
    (forall e : exn, Stdout (OptPassFailed e) ∈ evs -> k = 0%nat) /\
    (k = 0%nat ->
     Stdout (OptPassFailed (CalledProcessError (nth_exit w 0) (cmd_pass ir)))
       ∈ evs).
Proof.
  intros Hk Hbefore Hbad. rewrite run_binary_cases. cbv zeta.
  assert (Hz : forall i, (i < k)%nat -> (nth_exit w i =? 0) = true)
    by (intros i Hi; apply Z.eqb_eq, Hbefore, Hi).
  assert (Hnz : (nth_exit w k =? 0) = false) by (apply Z.eqb_neq, Hbad).
  destruct k as [|[|[|[|k]]]]; [| | | |lia].
  - rewrite Hnz. simpl. split; [reflexivity|]. eexists. split; [reflexivity|].
    split; [|split].
    + intros tag' t Hin.
      repeat (apply elem_of_cons in Hin as [Hin|Hin]; [discriminate|]).
      exact (proj1 (elem_of_nil _) Hin).
    + reflexivity.
    + intros _. right. left.
  - rewrite (Hz 0%nat ltac:(lia)), Hnz. simpl.
    split; [reflexivity|]. eexists. split; [reflexivity|]. split; [|split].
    + intros tag' t Hin.
      repeat (apply elem_of_cons in Hin as [Hin|Hin]; [discriminate|]).
      exact (proj1 (elem_of_nil _) Hin).
    + intros e Hin.
      repeat (apply elem_of_cons in Hin as [Hin|Hin]; [discriminate|]).
      destruct (proj1 (elem_of_nil _) Hin).
    + discriminate.
  - rewrite (Hz 0%nat ltac:(lia)), (Hz 1%nat ltac:(lia)), Hnz. simpl.
    split; [reflexivity|]. eexists. split; [reflexivity|]. split; [|split].
    + intros tag' t Hin.
      repeat (apply elem_of_cons in Hin as [Hin|Hin]; [discriminate|]).
      exact (proj1 (elem_of_nil _) Hin).
    + intros e Hin.
      repeat (apply elem_of_cons in Hin as [Hin|Hin]; [discriminate|]).
      destruct (proj1 (elem_of_nil _) Hin).
    + discriminate.
  - rewrite (Hz 0%nat ltac:(lia)), (Hz 1%nat ltac:(lia)),
      (Hz 2%nat ltac:(lia)), Hnz. simpl.
    split; [reflexivity|]. eexists. split; [reflexivity|]. split; [|split].
    + intros tag' t Hin.
      repeat (apply elem_of_cons in Hin as [Hin|Hin]; [discriminate|]).
      exact (proj1 (elem_of_nil _) Hin).
    + intros e Hin.
      repeat (apply elem_of_cons in Hin as [Hin|Hin]; [discriminate|]).
      destruct (proj1 (elem_of_nil _) Hin).
    + discriminate.
Qed.

Lemma run_binary_failure_effects_witness :
  clock_reads (snd (run_binary "a.out" "benchmark.ll" "trial"
                      (world Missing None 3 2))) = 1%nat /\
  clock_reads (snd (run_binary "a.out" "benchmark.ll" "trial"
                      (world Missing None 1 2))) = 0%nat.
Proof.
  split.
  - apply (proj1 (run_binary_failure_effects "a.out" "benchmark.ll" "trial"
                    (world Missing None 3 2) 3 ltac:(lia)
                    ltac:(intros i Hi; do 3 (destruct i as [|i]; [reflexivity|]); lia)
                    ltac:(discriminate))).
  - apply (proj1 (run_binary_failure_effects "a.out" "benchmark.ll" "trial"
                    (world Missing None 1 2) 1 ltac:(lia)
                    ltac:(intros i Hi; do 1 (destruct i as [|i]; [reflexivity|]); lia)
                    ltac:(discriminate))).
Defined.

(** ** When [reset] returns and when it raises *)

Lemma map_result_length {A B} (f : A -> result B) (l : list A) (ys : list B) :
  map_result f l = Ok ys -> length ys = length l.
Proof.
  revert ys. induction l as [|x l IH]; intros ys; simpl.
  - intros [= <-]. reflexivity.
  - destruct (f x); [|discriminate].
    destruct (map_result f l) as [ys'|]; [|discriminate].
    intros [= <-]. simpl. rewrite (IH ys' eq_refl). reflexivity.
Qed.

Lemma float_of_int_Raise (z : Z) (e : exn) :
  float_of_int z = Raise e -> e = OverflowError.
Proof. unfold float_of_int. destruct (Float.of_Z z); congruence. Qed.

(** [_feature_to_obs] returns on the records within the range of [float],
    and on them only; its only error is [OverflowError]. *)
Lemma feature_to_obs_cases (l : loop) :
  if loop_in_float_range l then _feature_to_obs l = Ok (encode l)
  else _feature_to_obs l = Raise OverflowError.
Proof.
  destruct (loop_in_float_range l) eqn:Hr;
    [exact (feature_to_obs_encode l Hr)|].
  unfold loop_in_float_range, in_float_range in Hr. simpl forallb in Hr.
  unfold _feature_to_obs, np_array_float32. simpl.
  repeat match goal with
         | |- context [float_of_int ?z] =>
             let E := fresh "E" in
             destruct (float_of_int z) eqn:E;
             [| apply float_of_int_Raise in E; subst; reflexivity]
         end.
  discriminate Hr.
Qed.

Lemma feature_to_obs_length (l : loop) (o : obs) :
  _feature_to_obs l = Ok o -> length o = 6%nat.
Proof.
  pose proof (feature_to_obs_cases l) as H.
  destruct (loop_in_float_range l); rewrite H; [|discriminate].
  intros [= <-]. reflexivity.
Qed.

(** X14. [reset] returns an observation, of the length of the mode, for
    every non-empty collection of records whose fields are integers of 64
    bits; the cursor is then 0 and the outside world untouched. *)
Theorem reset_returns {mode} (self : Env mode) (w : World) :
  loops self <> [] ->
  Forall (fun l => Forall (fun z => Z.abs z < 2 ^ 64) (loop_fields l))
    (loops self) ->
  exists o : obs,
    reset (self, w) = (Ok o, (set_current_loop_idx 0 self, w)) /\
    length o = obs_length mode (length (loops self)).
Proof.
  intros Hne Hall.
  assert (Hrange : Forall (fun l => loop_in_float_range l = true) (loops self)).
  { eapply Forall_impl; [exact Hall|]. intros l Hl.
    apply loop_in_float_range_64. exact Hl. }
  unfold reset, bind, modify_self, get_self, pure, single_loop_mode. simpl.
  destruct (loops self) as [|l0 rest] eqn:El; [contradiction|].
  destruct mode.
  - unfold getitem. simpl.
    rewrite (feature_to_obs_encode l0 (Forall_inv Hrange)).
    eexists. split; reflexivity.
  - rewrite (map_result_encode _ Hrange).
    eexists. split; [reflexivity|]. apply length_concat_encode.
Qed.

Lemma reset_returns_witness :
  exists o : obs,
    reset (env_multi, calm Missing None) =
      (Ok o, (env_multi, calm Missing None)) /\
    length o = 18%nat.
Proof.
  apply (reset_returns env_multi (calm Missing None)).
  - discriminate.
  - repeat constructor.
Defined.

(** X15. A record with a field too large for a float (an integer that
    rounds beyond the largest double) makes [reset] raise [OverflowError]:
    in single-loop mode when it is the first record, in whole-program mode
    wherever it is.  The cursor is set to 0 all the same. *)
Theorem reset_overflow (w : World) :
  (forall (self : Env true) (l0 : loop) (rest : list loop),
     loops self = l0 :: rest -> loop_in_float_range l0 = false ->
     reset (self, w) = (Raise OverflowError, (set_current_loop_idx 0 self, w))) /\
  (forall self : Env false,
     Exists (fun l => loop_in_float_range l = false) (loops self) ->
     reset (self, w) = (Raise OverflowError, (set_current_loop_idx 0 self, w))).
Proof.
  split.
  - intros self l0 rest Hl Hr.
    unfold reset, bind, modify_self, get_self, pure, single_loop_mode. simpl.
    rewrite Hl. unfold getitem. simpl.
    pose proof (feature_to_obs_cases l0) as H. rewrite Hr in H. rewrite H.
    reflexivity.
  - intros self Hex.
    unfold reset, bind, modify_self, get_self, pure, single_loop_mode. simpl.
    assert (H : map_result _feature_to_obs (loops self) = Raise OverflowError).
    { induction Hex as [l ls Hl|l ls _ IH]; simpl.
      - pose proof (feature_to_obs_cases l) as H. rewrite Hl in H.
        rewrite H. reflexivity.
      - pose proof (feature_to_obs_cases l) as H.
        destruct (loop_in_float_range l); rewrite H; [|reflexivity].
        rewrite IH. reflexivity. }
    rewrite H. reflexivity.
Qed.

Lemma reset_overflow_witness :
  reset (env_over true [Lhuge; L1] 1, calm Missing None) =
    (Raise OverflowError, (env_over true [Lhuge; L1] 0, calm Missing None)) /\
  reset (env_over false [L1; Lhuge] 0, calm Missing None) =
    (Raise OverflowError, (env_over false [L1; Lhuge] 0, calm Missing None)).
Proof.
  split.
  - apply (proj1 (reset_overflow (calm Missing None))
             (env_over true [Lhuge; L1] 1) Lhuge [L1] eq_refl).
    vm_compute. reflexivity.
  - apply (proj2 (reset_overflow (calm Missing None))
             (env_over false [L1; Lhuge] 0)).
    right. left. vm_compute. reflexivity.
Defined.

(** X16. On an environment without records, which the constructor accepts,
    [reset] always raises: [IndexError] in single-loop mode and [ValueError]
    (from [np.concatenate]) in whole-program mode. *)
Theorem reset_empty {mode} (self : Env mode) (w : World) :
  loops self = [] ->
  reset (self, w) =
    (Raise (if mode then IndexError else ValueError),
     (set_current_loop_idx 0 self, w)).
Proof.
  intros Hl.
  unfold reset, bind, modify_self, get_self, pure, single_loop_mode. simpl.
  rewrite Hl. destruct mode; reflexivity.
Qed.

Lemma reset_empty_witness :
  reset (env_over true [] 0, calm Missing None) =
    (Raise IndexError, (env_over true [] 0, calm Missing None)) /\
  reset (env_over false [] 0, calm Missing None) =
    (Raise ValueError, (env_over false [] 0, calm Missing None)).
Proof.
  split.
  - apply (reset_empty (env_over true [] 0) (calm Missing None)). reflexivity.
  - apply (reset_empty (env_over false [] 0) (calm Missing None)). reflexivity.
Defined.

(** ** The spaces the constructor declares *)

(** X17. The spaces the constructor declares agree with what the methods
    return: the action space is [Discrete(4)] or [MultiDiscrete] of
    [n_loops] fours, the shape of the observation space is the length of the
    observations of the mode, and every observation [reset] returns has that
    length. *)
Theorem init_spaces {mode} (ir bp : string) (w : World) (self : Env mode)
    (w' : World) :
  __init__ ir bp mode w = (Ok self, w') ->
  action_space self =
    (if mode then Discrete 4
     else MultiDiscrete (replicate (length (loops self)) 4)) /\
  observation_space self =
    Box (-1000000000) 1000000000
      [Z.of_nat (obs_length mode (length (loops self)))] /\
  (forall (w1 : World) (o : obs),
     fst (reset (self, w1)) = Ok o ->
     length o = obs_length mode (length (loops self))).
Proof.
  intros Hinit. split; [|split].
  - unfold __init__, bind, load_features, ret in Hinit.
    destruct (features_file w) as [| |recs]; try discriminate.
    destruct (run_binary bp ir "baseline" w) as [[t|e] w1]; [|discriminate].
    injection Hinit as <- _. destruct mode; simpl; [reflexivity|].
    unfold repeat_list, len. rewrite Nat2Z.id. reflexivity.
  - unfold __init__, bind, load_features, ret in Hinit.
    destruct (features_file w) as [| |recs]; try discriminate.
    destruct (run_binary bp ir "baseline" w) as [[t|e] w1]; [|discriminate].
    injection Hinit as <- _. destruct mode; simpl; [reflexivity|].
    unfold len. do 2 f_equal. lia.
  - intros w1 o.
    unfold reset, bind, modify_self, get_self, pure, single_loop_mode. simpl.
    destruct mode.
    + destruct (getitem (loops self) 0) as [l|e]; [|discriminate].
      simpl. apply feature_to_obs_length.
    + destruct (map_result _feature_to_obs (loops self)) as [os|e] eqn:E;
        [|discriminate].
      simpl. destruct os as [|o1 os]; [discriminate|]. simpl.
      intros [= <-].
      pose proof (map_result_length _ _ _ E) as Hlen.
      assert (Hsix : Forall (fun o => length o = 6%nat) (o1 :: os)).
      { clear Hlen. revert E. generalize (o1 :: os) as oss.
        induction (loops self) as [|l ls IH]; intros oss; simpl.
        - intros [= <-]. constructor.
        - destruct (_feature_to_obs l) as [o|] eqn:El; [|discriminate].
          destruct (map_result _feature_to_obs ls) as [os'|]; [|discriminate].
          intros [= <-]. constructor.
          + exact (feature_to_obs_length l o El).
          + apply IH. reflexivity. }
      rewrite <- Hlen. clear Hlen E.
      change (length (concat (o1 :: os)) = (6 * length (o1 :: os))%nat).
      induction Hsix as [|o' os' Ho' _ IH]; [reflexivity|].
      simpl concat. rewrite length_app, IH, Ho'. simpl. lia.
Qed.

Lemma init_spaces_witness :
  exists (self : Env false),
    fst (__init__ "benchmark.ll" "a.out" false
           (calm (Features [L1; L2; L3]) None)) = Ok self /\
    action_space self = MultiDiscrete [4; 4; 4] /\
    observation_space self = Box (-1000000000) 1000000000 [18].
Proof.
  pose (self0 := {| ir_path := "benchmark.ll"; binary_path := "a.out";
                    loops := [L1; L2; L3]; n_loops := 3; obs_dim := 6;
                    action_space := MultiDiscrete [4; 4; 4];
                    observation_space := Box (-1000000000) 1000000000 [18];
                    baseline_time := Float.of_Z 1;
                    current_loop_idx := 0 |} : Env false).
  assert (Hinit : __init__ "benchmark.ll" "a.out" false
                    (calm (Features [L1; L2; L3]) None) =
                  (Ok self0, snd (__init__ "benchmark.ll" "a.out" false
                                    (calm (Features [L1; L2; L3]) None))))
    by (vm_compute; reflexivity).
  exists self0. rewrite Hinit. split; [reflexivity|].
  destruct (init_spaces _ _ _ _ _ Hinit) as (Ha & Ho & _).
  split; [exact Ha|exact Ho].
Defined.

(** ** One pass of the toolchain per step *)

(** X18. A [step] that returns has done exactly this to the outside world,
    in this order: it has written its act map to [loop_actions.json], it has
    started the four stages once each, every one of them under that act map,
    and it has printed the runtime of the trial; it has read the clock
    twice. *)
Theorem step_trace {mode} (self : Env mode) (w : World)
    (action : action_t mode) (res : obs * float * bool * info)
    (st' : St mode) :
  step (self, w) action = (Ok res, st') ->
  exists m : gmap string metadata,
    act_map_of self action = Ok m /\
    trace (snd st') =
      trace w ++
      [Wrote m;
       Spawn (cmd_pass (ir_path self)) (Some m) 0;
       Spawn cmd_vec (Some m) 0;
       Spawn (cmd_clang (binary_path self)) (Some m) 0;
       Spawn (cmd_run (binary_path self)) (Some m) 0;
       Stdout (Runtime "trial" (elapsed_of w))] /\
    spawned (snd st') = (4 + spawned w)%nat /\
    clock_reads (snd st') = (2 + clock_reads w)%nat.
Proof.
  intros Hstep.
  destruct (step_spec self w action) as (self' & zeros & _ & _ & _ & _ & _ & Heq).
  rewrite Heq in Hstep. unfold step_outcome in Hstep.
  destruct (act_map_of self action) as [m|e]; [|discriminate].
  exists m. split; [reflexivity|].
  destruct (run_binary_inv (binary_path self) (ir_path self) "trial" (written m w))
    as [[_ Hrun]|(k & _ & _ & _ & Hr & _)].
  - rewrite Hrun in Hstep. destruct zeros as [z|e]; [|discriminate].
    injection Hstep as _ <-. simpl. rewrite <- app_assoc.
    repeat split; reflexivity.
  - destruct (run_binary _ _ _ _) as [[t|e] w1]; simpl in Hr; discriminate.
Qed.

Lemma step_trace_witness :
  exists m : gmap string metadata,
    act_map_of (env_single 1) 2 = Ok m /\
    spawned (snd (snd (step (env_single 1, calm Missing None) 2))) = 4%nat /\
    clock_reads (snd (snd (step (env_single 1, calm Missing None) 2))) = 2%nat.
Proof.
  assert (Hstep : step (env_single 1, calm Missing None) 2 =
                  (Ok (repeat_list Float32.zero 6, Float.of_Z 1, true,
                       {| runtime := Float.of_Z 1 |}),
                   snd (step (env_single 1, calm Missing None) 2)))
    by (vm_compute; reflexivity).
  destruct (step_trace _ _ _ _ _ Hstep) as (m & Hmap & _ & Hs & Hc).
  exists m. repeat split; assumption.
Defined.

(** X19. In single-loop mode the steps that follow one another without a
    [reset] go through the records in order: after a step that returned at
    cursor [i], the next step acts on record [i + 1] and writes the
    one-entry act map of its loop id. *)
Theorem step_scan (self : Env true) (w w1' : World) (action action' : Z)
    (res : obs * float * bool * info) (self1 : Env true) (w1 : World)
    (l : loop) (id : string) :
  0 <= current_loop_idx self ->
  step (self, w) action = (Ok res, (self1, w1)) ->
  loops self !! Z.to_nat (current_loop_idx self + 1) = Some l ->
  loop_id l = Some id ->
  current_loop_idx self1 = current_loop_idx self + 1 /\
  actions_file (snd (snd (step (self1, w1') action'))) =
    Some {[id := action_to_metadata action']}.
Proof.
  intros Hidx Hstep Hl Hid.
  pose proof (step_state self w action) as (Hloops & _).
  apply step_Ok_inv in Hstep as Hinv.
  destruct Hinv as (_ & _ & _ & _ & _ & Hcur).
  rewrite Hstep in Hloops. simpl in Hloops, Hcur.
  split; [exact Hcur|].
  apply step_written. simpl. rewrite Hloops, Hcur.
  rewrite <- (Z2Nat.id (current_loop_idx self + 1)) by lia.
  rewrite (getitem_of_nat _ _ _ Hl), Hid. reflexivity.
Qed.

Lemma step_scan_witness :
  exists (self1 : Env true),
    current_loop_idx self1 = 1 /\
    actions_file (snd (snd (step (self1, calm Missing None) 0))) =
      Some {["L2" := Disable true]}.
Proof.
  assert (Hstep : step (env_single 0, calm Missing None) 3 =
                  (Ok (repeat_list Float32.zero 6, Float.of_Z 1, true,
                       {| runtime := Float.of_Z 1 |}),
                   (fst (snd (step (env_single 0, calm Missing None) 3)),
                    snd (snd (step (env_single 0, calm Missing None) 3)))))
    by (vm_compute; reflexivity).
  exists (fst (snd (step (env_single 0, calm Missing None) 3))).
  apply (step_scan (env_single 0) (calm Missing None) (calm Missing None) 3 0
           _ _ _ L2 "L2" ltac:(simpl; lia) Hstep eq_refl eq_refl).
Defined.
